(** * The instructor tutorials: notebooks and pre-commit configuration

    A shallow embedding of the code cells of [tutorials/2.tips.ipynb] and
    [tutorials/3.0.applications-rag.ipynb] and of [.pre-commit-config.yaml].

    The notebooks are Python: values are dynamically typed, names live in
    the kernel's namespace (a dict), a cell runs statement after statement
    and stops at the first exception.  A cell is embedded as a program in a
    state-and-exception monad; the calls into libraries the repository does
    not own (the patched OpenAI client, pydantic's dumps) are parameters.

    Imports, class statements and the line that makes the client are
    declarations: a class is embedded as its annotation and its methods,
    the client as the [llm] parameter, and a request is the term its cell
    writes.  The namespace of the embedding is the part of the kernel's
    namespace that holds the variables the cells bind to data ([resp],
    [character], [dot], [text_chunk], ...), not the names of modules,
    classes and the client.  The dumps are methods of model instances. *)

From stdpp Require Import base strings gmap list pretty.
From Stdlib Require Import ZArith Ascii String.

Set Warnings "-register-all".
Local Open Scope Z_scope.

(** ** Schema declarations (pydantic) *)

Module Pydantic.

(** Constraints a [Field(...)] call can carry (min_length=, max_length=).
    No declaration of the notebooks passes one. *)
Inductive constraint :=
| MinLength (n : nat)
| MaxLength (n : nat).

(** [default_factory=list] is the only factory of the notebooks. *)
Inductive factory := list_factory.

Record FieldInfo := {
  default_factory : option factory;
  description : option string;
  metadata : list constraint
}.

(** [Field(default_factory=.., description=.., <constraints>)]; a first
    argument [...] marks the field required, as does its absence. *)
Definition Field (df : option factory) (descr : option string)
    (cs : list constraint) : FieldInfo :=
  {| default_factory := df; description := descr; metadata := cs |}.

(** A bare annotation [name: T]. *)
Definition bare : FieldInfo := Field None None [].

Inductive annotation :=
| AInt
| AStr
| ADate
| AList (item : annotation)
| AIterable (item : annotation)
| ALiteral (choices : list string)
| AEnum (cls : string) (members : list (string * string))
| AModel (cls : string) (fields : list (string * (annotation * FieldInfo))).

Definition fields_of (a : annotation) : list (string * (annotation * FieldInfo)) :=
  match a with AModel _ fs => fs | _ => [] end.

Fixpoint assoc {A} (k : string) (l : list (string * A)) : option A :=
  match l with
  | [] => None
  | (k', v) :: l' => if decide (k = k') then Some v else assoc k l'
  end.

Definition field_annotation (a : annotation) (name : string) : option annotation :=
  fst <$> assoc name (fields_of a).

Definition field_info (a : annotation) (name : string) : option FieldInfo :=
  snd <$> assoc name (fields_of a).

End Pydantic.
Import Pydantic.

(** ** Python values and the kernel *)

Module Py.

(** An exception, by the name of its class. *)
Definition exn := string.

(** A statement of a graphviz [Digraph] body. *)
Inductive dot_stmt :=
| Node (name label : string)
| Edge (tail head : string).

Inductive value :=
| VNone
| VInt (z : Z)
| VStr (s : string)
| VDate (y m d : Z)
| VList (items : list value)
| VRef (a : nat)                                (* a list object made by a default factory *)
| VGen (items : list value) (failure : option exn) (* a generator: yields, then may raise *)
| VEnum (cls member val : string)               (* an Enum member and its [.value] *)
| VObj (cls : string) (attrs : list (string * value))
| VDigraph (body : list dot_stmt).

Record message := { role : string; content : string }.

Record request := {
  model : string;
  messages : list message;
  response_model : annotation;
  stream : bool
}.

(** What a cell does that can be seen from outside, in order. *)
Inductive event :=
| Call (req : request)     (* client.chat.completions.create(...) *)
| Print (v : value)        (* print(v) *)
| PPrint (v : value)       (* pprint(v) *)
| Result (v : value)       (* the value of the cell's last expression *)
| Display (v : value).     (* IPython.display.display(v) *)

(** Libraries the repository calls and does not own. *)
Record external := {
  llm : request -> exn + value;        (* create: raises, or returns the parsed response *)
  model_dump : value -> value;         (* BaseModel.model_dump(), of an instance *)
  model_dump_json : Z -> value -> string; (* BaseModel.model_dump_json(indent=n), of an instance *)
  obj_str : value -> string;           (* str() of an object of a library class *)
  today : string                       (* str(date.today()) *)
}.

Record state := {
  globals : gmap string value;         (* the kernel's namespace *)
  heap : gmap nat (list value);        (* list objects with an identity *)
  trace : list event
}.

Definition M (A : Type) : Type := state -> (exn + A) * state.

Definition ret {A} (a : A) : M A := fun s => (inr a, s).

Definition raise {A} (e : exn) : M A := fun s => (inl e, s).

Definition bind {A B} (m : M A) (k : A -> M B) : M B :=
  fun s => match m s with
           | (inl e, s') => (inl e, s')
           | (inr a, s') => k a s'
           end.

Declare Scope py_scope.
Delimit Scope py_scope with py.
Notation "x <- m ;; k" := (bind m (fun x => k))
  (at level 100, m at next level, right associativity) : py_scope.
Notation "m ;;; k" := (bind m (fun _ => k))
  (at level 100, right associativity) : py_scope.
Local Open Scope py_scope.

Definition emit (ev : event) : M unit :=
  fun s => (inr tt, {| globals := globals s; heap := heap s; trace := trace s ++ [ev] |}).

(** [name = v] at the top level of a cell. *)
Definition assign (name : string) (v : value) : M unit :=
  fun s => (inr tt, {| globals := <[name := v]> (globals s); heap := heap s; trace := trace s |}).

(** Reading a global; an unbound name raises. *)
Definition load (name : string) : M value :=
  fun s => match globals s !! name with
           | Some v => (inr v, s)
           | None => (inl "NameError", s)
           end.

Definition print (v : value) : M unit := emit (Print v).
Definition pprint (v : value) : M unit := emit (PPrint v).
Definition result (v : value) : M unit := emit (Result v).
Definition display (v : value) : M unit := emit (Display v).

(** [obj.name] *)
Definition getattr (obj : value) (name : string) : M value :=
  match obj with
  | VObj _ attrs =>
      match assoc name attrs with
      | Some v => ret v
      | None => raise "AttributeError"
      end
  | VEnum _ member val =>
      if decide (name = "value") then ret (VStr val)
      else if decide (name = "name") then ret (VStr member)
      else raise "AttributeError"
  | _ => raise "AttributeError"
  end.

(** [str(v)], and [{v}] in an f-string: the decimal numeral of an int,
    a str itself. *)
Definition str (ext : external) (v : value) : string :=
  match v with
  | VStr s => s
  | VInt z => pretty z
  | _ => obj_str ext v
  end.

(** [a > b]; ints only, as the annotations of the notebooks have them. *)
Definition gt (a b : value) : M bool :=
  match a, b with
  | VInt x, VInt y => ret (bool_decide (x > y))
  | _, _ => raise "TypeError"
  end.

(** *** [str.title()], on ASCII

    Letters are the ASCII ones; the notebooks title-case the values of
    [House] only, which are ASCII. *)

Definition is_lower (c : ascii) : bool :=
  let n := nat_of_ascii c in (97 <=? n)%nat && (n <=? 122)%nat.
Definition is_upper (c : ascii) : bool :=
  let n := nat_of_ascii c in (65 <=? n)%nat && (n <=? 90)%nat.
Definition to_upper (c : ascii) : ascii :=
  if is_lower c then ascii_of_nat (nat_of_ascii c - 32) else c.
Definition to_lower (c : ascii) : ascii :=
  if is_upper c then ascii_of_nat (nat_of_ascii c + 32) else c.

(** A cased character is made upper case after an uncased one and lower
    case after a cased one. *)
Fixpoint title_from (previous_is_cased : bool) (s : string) : string :=
  match s with
  | EmptyString => EmptyString
  | String c rest =>
      if is_lower c || is_upper c
      then String (if previous_is_cased then to_lower c else to_upper c)
                  (title_from true rest)
      else String c (title_from false rest)
  end.

Definition title (s : string) : string := title_from false s.

(** [v.title()] *)
Definition call_title (v : value) : M value :=
  match v with
  | VStr s => ret (VStr (title s))
  | _ => raise "AttributeError"
  end.

(** *** Iteration *)

(** The loop variable [x] is a global of the kernel, bound at each turn. *)
Fixpoint for_each (x : string) (l : list value) (body : value -> M unit) : M unit :=
  match l with
  | [] => ret tt
  | item :: l' => assign x item ;;; body item ;;; for_each x l' body
  end.

(** [for x in v: body].  A generator yields its items and may then raise
    what the library raised while streaming; no cell goes through a
    generator twice. *)
Definition for_in (x : string) (v : value) (body : value -> M unit) : M unit :=
  match v with
  | VList l => for_each x l body
  | VGen l failure =>
      for_each x l body ;;;
      match failure with Some e => raise e | None => ret tt end
  | VRef a =>
      fun s => match heap s !! a with
               | Some l => for_each x l body s
               | None => (inl "TypeError", s)
               end
  | _ => raise "TypeError"
  end.

(** [dot.node(name, label)] and [dot.edge(tail, head)] on the Digraph
    bound to [dot]: each appends one statement to its body. *)
Definition dot_node (name label : value) : M unit :=
  d <- load "dot" ;;
  match d, name, label with
  | VDigraph body, VStr n, VStr l => assign "dot" (VDigraph (body ++ [Node n l]))
  | _, _, _ => raise "TypeError"
  end.

Definition dot_edge (tail head : value) : M unit :=
  d <- load "dot" ;;
  match d, tail, head with
  | VDigraph body, VStr t, VStr h => assign "dot" (VDigraph (body ++ [Edge t h]))
  | _, _, _ => raise "TypeError"
  end.

(** [client.chat.completions.create(...)]: one blocking call.  The patched
    client is the library's; what it answers is [llm]. *)
Definition create (ext : external) (req : request) : M value :=
  emit (Call req) ;;;
  match llm ext req with
  | inl e => raise e
  | inr v => ret v
  end.

Definition cell : Type := external -> M unit.

Definition init : state := {| globals := ∅; heap := ∅; trace := [] |}.

End Py.
Import Py.
Local Open Scope py_scope.

(** ** Building an instance: [Cls(key=.., ..)]

    What pydantic does with a declaration when an instance is built: each
    declared field is looked up in the keyword arguments, checked against
    its annotation and against the constraints of its [Field], or filled
    from its default factory.  A [description] takes no part.  Coercions
    (a numeral given for an int, an ISO string for a date) are left out. *)

Module Validation.

Definition length_of (v : value) : option nat :=
  match v with
  | VStr s => Some (String.length s)
  | VList l => Some (List.length l)
  | _ => None
  end.

Definition satisfies (c : constraint) (v : value) : bool :=
  match c, length_of v with
  | MinLength n, Some k => (n <=? k)%nat
  | MaxLength n, Some k => (k <=? n)%nat
  | _, None => false
  end.

Definition check (info : FieldInfo) (v : value) : M value :=
  if forallb (fun c => satisfies c v) (metadata info) then ret v
  else raise "ValidationError".

(** [list()]: a new, empty list object. *)
Definition new_list : M value :=
  fun s =>
    let a := fresh (dom (heap s)) in
    (inr (VRef a),
     {| globals := globals s; heap := <[a := []]> (heap s); trace := trace s |}).

Definition call_factory (f : factory) : M value :=
  match f with list_factory => new_list end.

(** A field left out of the arguments. *)
Definition default (info : FieldInfo) : M value :=
  match default_factory info with
  | Some f => call_factory f
  | None => raise "ValidationError"
  end.

Fixpoint validate (a : annotation) (v : value) {struct a} : M value :=
  match a with
  | AInt => match v with VInt _ => ret v | _ => raise "ValidationError" end
  | AStr => match v with VStr _ => ret v | _ => raise "ValidationError" end
  | ADate => match v with VDate _ _ _ => ret v | _ => raise "ValidationError" end
  | AList item | AIterable item =>
      match v with
      | VList l =>
          validated <-
            (fix each (l : list value) : M (list value) :=
               match l with
               | [] => ret []
               | x :: l' => y <- validate item x ;; ys <- each l' ;; ret (y :: ys)
               end) l ;;
          ret (VList validated)
      | _ => raise "ValidationError"
      end
  | ALiteral choices =>
      match v with
      | VStr s => if bool_decide (s ∈ choices) then ret v else raise "ValidationError"
      | _ => raise "ValidationError"
      end
  | AEnum cls members =>
      match v with
      | VEnum cls' member val =>
          if bool_decide (cls' = cls ∧ (member, val) ∈ members) then ret v
          else raise "ValidationError"
      | _ => raise "ValidationError"
      end
  | AModel cls fields =>
      match v with
      | VObj _ kwargs =>
          attrs <-
            (fix each (fs : list (string * (annotation * FieldInfo)))
               : M (list (string * value)) :=
               match fs with
               | [] => ret []
               | (name, (ann, info)) :: fs' =>
                   x <- match assoc name kwargs with
                        | Some given => y <- validate ann given ;; check info y
                        | None => default info
                        end ;;
                   rest <- each fs' ;;
                   ret ((name, x) :: rest)
               end) fields ;;
          ret (VObj cls attrs)
      | _ => raise "ValidationError"
      end
  end.

(** [Cls(key=.., ..)] *)
Definition construct (cls : annotation) (kwargs : list (string * value)) : M value :=
  validate cls (VObj "dict" kwargs).

End Validation.

(** ** tutorials/2.tips.ipynb *)

Module Tips.

Definition user (text : string) : message := {| role := "user"; content := text |}.

Definition gpt4 : string := "gpt-4-1106-preview".

(** *** Classification, with an Enum *)
Module Classification.

Inductive HouseMember := Gryffindor | Hufflepuff | Ravenclaw | Slytherin.

Definition member_name (h : HouseMember) : string :=
  match h with
  | Gryffindor => "Gryffindor" | Hufflepuff => "Hufflepuff"
  | Ravenclaw => "Ravenclaw" | Slytherin => "Slytherin"
  end.

Definition member_value (h : HouseMember) : string :=
  match h with
  | Gryffindor => "gryffindor" | Hufflepuff => "hufflepuff"
  | Ravenclaw => "ravenclaw" | Slytherin => "slytherin"
  end.

Definition members : list HouseMember := [Gryffindor; Hufflepuff; Ravenclaw; Slytherin].

Definition House : annotation :=
  AEnum "House" ((fun h => (member_name h, member_value h)) <$> members).

Definition Character : annotation :=
  AModel "Character" [("age", (AInt, bare)); ("name", (AStr, bare)); ("house", (House, bare))].

(** The enum member as a Python object. *)
Definition house_obj (h : HouseMember) : value :=
  VEnum "House" (member_name h) (member_value h).

(** An instance of [Character]. *)
Definition character_obj (age : Z) (name : string) (h : HouseMember) : value :=
  VObj "Character" [("age", VInt age); ("name", VStr name); ("house", house_obj h)].

Definition say_hello (ext : external) (self : value) : M unit :=
  name <- getattr self "name" ;;
  age <- getattr self "age" ;;
  house <- getattr self "house" ;;
  house_value <- getattr house "value" ;;
  titled <- call_title house_value ;;
  print (VStr ("Hello, I'm " +:+ str ext name +:+ ", I'm " +:+ str ext age
               +:+ " years old and I'm from " +:+ str ext titled)).

Definition request : Py.request :=
  {| model := gpt4; messages := [user "Harry Potter"];
     response_model := Character; stream := false |}.

Definition cell : Py.cell := fun ext =>
  resp <- create ext request ;;
  assign "resp" resp ;;;
  result (model_dump ext resp).

(** [resp.say_hello()], the next cell. *)
Definition cell_say_hello : Py.cell := fun ext =>
  resp <- load "resp" ;;
  say_hello ext resp.

End Classification.

Definition houses : annotation := ALiteral ["Gryffindor"; "Hufflepuff"; "Ravenclaw"; "Slytherin"].

(** *** Classification, with a Literal *)
Module Literals.

Definition Character : annotation :=
  AModel "Character" [("age", (AInt, bare)); ("name", (AStr, bare)); ("house", (houses, bare))].

Definition request : Py.request :=
  {| model := gpt4; messages := [user "Harry Potter"];
     response_model := Character; stream := false |}.

Definition cell : Py.cell := fun ext =>
  resp <- create ext request ;;
  assign "resp" resp ;;;
  result (model_dump ext resp).

End Literals.

(** *** Arbitrary properties *)
Module Properties.

Definition Property : annotation :=
  AModel "Property"
    [("key", (AStr, Field None (Some "Must be snake case") []));
     ("value", (AStr, bare))].

Definition Character : annotation :=
  AModel "Character"
    [("age", (AInt, bare)); ("name", (AStr, bare)); ("house", (houses, bare));
     ("properties", (AList Property, bare))].

Definition request : Py.request :=
  {| model := gpt4; messages := [user "Snape from Harry Potter"];
     response_model := Character; stream := false |}.

Definition cell : Py.cell := fun ext =>
  resp <- create ext request ;;
  assign "resp" resp ;;;
  result (model_dump ext resp).

End Properties.

(** *** Limiting the length of lists *)
Module LimitedLists.

Definition Property : annotation :=
  AModel "Property"
    [("index", (AStr, Field None (Some "Monotonically increasing ID") []));
     ("key", (AStr, Field None (Some "Must be snake case") []));
     ("value", (AStr, bare))].

Definition Character : annotation :=
  AModel "Character"
    [("age", (AInt, bare)); ("name", (AStr, bare)); ("house", (houses, bare));
     ("properties",
      (AList Property,
       Field None
         (Some "Numbered list of arbitrary extracted properties, should be exactly 5") []))].

Definition request : Py.request :=
  {| model := gpt4; messages := [user "Snape from Harry Potter"];
     response_model := Character; stream := false |}.

Definition cell : Py.cell := fun ext =>
  resp <- create ext request ;;
  assign "resp" resp ;;;
  result (model_dump ext resp).

End LimitedLists.

(** *** Defining multiple entities *)
Module MultipleEntities.

Definition Character : annotation :=
  AModel "Character" [("age", (AInt, bare)); ("name", (AStr, bare)); ("house", (houses, bare))].

Definition request : Py.request :=
  {| model := gpt4;
     messages := [user "Snape and Dumbledore from Harry Potter"];
     response_model := AIterable Character; stream := false |}.

Definition cell : Py.cell := fun ext =>
  resp <- create ext request ;;
  assign "resp" resp ;;;
  for_in "character" resp (fun character => print character).

Definition request_stream : Py.request :=
  {| model := gpt4;
     messages := [user "Snape and Dumbledore from Harry Potter"];
     response_model := AIterable Character; stream := true |}.

Definition cell_stream : Py.cell := fun ext =>
  resp <- create ext request_stream ;;
  assign "resp" resp ;;;
  for_in "character" resp (fun character => print character).

End MultipleEntities.

(** *** Defining relationships *)
Module Relationships.

Definition Character : annotation :=
  AModel "Character" [("id", (AInt, bare)); ("name", (AStr, bare)); ("friends", (AList AInt, bare))].

(** An instance of [Character]. *)
Definition character_obj (id : Z) (name : string) (friends : list Z) : value :=
  VObj "Character" [("id", VInt id); ("name", VStr name); ("friends", VList (VInt <$> friends))].

Definition request : Py.request :=
  {| model := gpt4; messages := [user "The 5 kids from Harry Potter"];
     response_model := AIterable Character; stream := true |}.

Definition cell : Py.cell := fun ext =>
  resp <- create ext request ;;
  assign "resp" resp ;;;
  for_in "character" resp (fun character => print character).

(** Create nodes for each user. *)
Definition create_nodes (ext : external) (resp : value) : M unit :=
  for_in "user" resp (fun user =>
    id <- getattr user "id" ;;
    name <- getattr user "name" ;;
    dot_node (VStr (str ext id)) name).

(** Create edges for friends: only when the friend ID is greater than
    the user ID. *)
Definition create_edges (ext : external) (resp : value) : M unit :=
  for_in "user" resp (fun user =>
    friends <- getattr user "friends" ;;
    for_in "friend_id" friends (fun friend_id =>
      id <- getattr user "id" ;;
      greater <- gt friend_id id ;;
      if greater : bool
      then id' <- getattr user "id" ;;
           dot_edge (VStr (str ext id')) (VStr (str ext friend_id))
      else ret tt)).

Definition request_graph : Py.request :=
  {| model := gpt4; messages := [user "The 5 kids from Harry Potter"];
     response_model := AIterable Character; stream := false |}.

Definition cell_graph : Py.cell := fun ext =>
  assign "dot" (VDigraph []) ;;;
  resp <- create ext request_graph ;;
  assign "resp" resp ;;;
  create_nodes ext resp ;;;
  create_edges ext resp ;;;
  dot <- load "dot" ;;
  display dot.

End Relationships.

(** The code cells, in the order of the notebook. *)
Definition cells : list Py.cell :=
  [Classification.cell; Classification.cell_say_hello; Literals.cell; Properties.cell;
   LimitedLists.cell; MultipleEntities.cell; MultipleEntities.cell_stream;
   Relationships.cell; Relationships.cell_graph].

End Tips.

(** ** tutorials/3.0.applications-rag.ipynb *)

Module Rag.

(** The double quote and the line feed, as one-character strings. *)
Definition dq : string := String "034"%char EmptyString.
Definition lf : string := String "010"%char EmptyString.

Definition system (text : string) : message := {| role := "system"; content := text |}.
Definition user (text : string) : message := {| role := "user"; content := text |}.

Definition gpt4 : string := "gpt-4-1106-preview".

(** *** Example 1: improving extractions *)
Module Extractions.

Definition Extraction : annotation :=
  AModel "Extraction"
    [("topic", (AStr, bare));
     ("summary", (AStr, bare));
     ("hypothetical_questions",
      (AList AStr,
       Field (Some list_factory)
         (Some "Hypothetical questions that this document could answer") []));
     ("keywords",
      (AList AStr,
       Field (Some list_factory) (Some "Keywords that this document is about") []))].

Definition text_chunk : string :=
  ("
## Simple RAG

**What is it?**

The simplest implementation of RAG embeds a user query and do a single embedding search in a vector database, like a vector store of Wikipedia articles. However, this approach often falls short when dealing with complex queries and diverse data sources.

**What are the limitations?**

- **Query-Document Mismatch:** It assumes that the query and document embeddings will align in the vector space, which is often not the case.
    - Query: " +:+ dq +:+
"Tell me about climate change effects on marine life." +:+ dq +:+
"
    - Issue: The model might retrieve documents related to general climate change or marine life, missing the specific intersection of both topics.
- **Monolithic Search Backend:** It relies on a single search method and backend, reducing flexibility and the ability to handle multiple data sources.
    - Query: " +:+ dq +:+
"Latest research in quantum computing." +:+ dq +:+
"
    - Issue: The model might only search in a general science database, missing out on specialized quantum computing resources.
- **Text Search Limitations:** The model is restricted to simple text queries without the nuances of advanced search features.
    - Query: " +:+ dq +:+
"what problems did we fix last week" +:+ dq +:+
"
    - Issue: cannot be answered by a simple text search since documents that contain problem, last week are going to be present at every week.
- **Limited Planning Ability:** It fails to consider additional contextual information that could refine the search results.
    - Query: " +:+ dq +:+
"Tips for first-time Europe travelers." +:+ dq +:+
"
    - Issue: The model might provide general travel advice, ignoring the specific context of first-time travelers or European destinations.
").

Definition request : Py.request :=
  {| model := gpt4;
     stream := true;
     response_model := AIterable Extraction;
     messages :=
       [system "Your role is to extract chunks from the following and create a set of topics.";
        user text_chunk] |}.

Definition cell : Py.cell := fun ext =>
  assign "text_chunk" (VStr text_chunk) ;;;
  extractions <- create ext request ;;
  assign "extractions" extractions ;;;
  for_in "extraction" extractions (fun extraction => pprint (model_dump ext extraction)).

End Extractions.

(** *** Example 2: temporal context *)
Module Temporal.

Definition DateRange : annotation :=
  AModel "DateRange" [("start", (ADate, bare)); ("end", (ADate, bare))].

Definition Query : annotation :=
  AModel "Query" [("rewritten_query", (AStr, bare)); ("published_daterange", (DateRange, bare))].

Definition request (ext : external) : Py.request :=
  {| model := "gpt-3.5-turbo";
     response_model := Query;
     messages :=
       [system ("You're a query understanding system for the Metafor Systems search engine. Today is "
                +:+ today ext +:+ ". Here are some tips: ...");
        user "query: What are some recent developments in AI?"];
     stream := false |}.

Definition cell : Py.cell := fun ext =>
  query <- create ext (request ext) ;;
  assign "query" query ;;;
  print (VStr (model_dump_json ext 4 query)).

End Temporal.

(** *** Example 2, with a chain of thought *)
Module ChainOfThought.

Definition DateRange : annotation :=
  AModel "DateRange"
    [("chain_of_thought",
      (AStr,
       Field None
         (Some "Think step by step to plan what is the best time range to search in") []));
     ("start", (ADate, bare)); ("end", (ADate, bare))].

Definition Query : annotation :=
  AModel "Query" [("rewritten_query", (AStr, bare)); ("published_daterange", (DateRange, bare))].

Definition request (ext : external) : Py.request :=
  {| model := gpt4;
     response_model := Query;
     messages :=
       [system ("You're a query understanding system for a search engine. Today is "
                +:+ today ext +:+ ".");
        user "What are some recent developments in AI?"];
     stream := false |}.

Definition cell : Py.cell := fun ext =>
  query <- create ext (request ext) ;;
  assign "query" query ;;;
  print (VStr (model_dump_json ext 4 query)).

End ChainOfThought.

(** *** Example 3: personal assistants *)
Module Assistant.

Definition SearchClient : annotation :=
  AModel "SearchClient"
    [("query", (AStr, bare));
     ("keywords", (AList AStr, bare));
     ("email", (AStr, bare));
     ("source", (ALiteral ["gmail"; "calendar"], bare));
     ("date_range", (ChainOfThought.DateRange, bare))].

Definition Retrival : annotation :=
  AModel "Retrival" [("queries", (AList SearchClient, bare))].

Definition request (ext : external) : Py.request :=
  {| model := gpt4;
     response_model := Retrival;
     messages :=
       [system ("You are Jason's personal assistant. Today is " +:+ today ext);
        user "What do I have today?"];
     stream := false |}.

Definition cell : Py.cell := fun ext =>
  retrival <- create ext (request ext) ;;
  assign "retrival" retrival ;;;
  print (VStr (model_dump_json ext 4 retrival)).

Definition request_tasks (ext : external) : Py.request :=
  {| model := gpt4;
     response_model := Retrival;
     messages :=
       [system ("You are Jason's personal assistant. Today is " +:+ today ext);
        user "What meetings do I have today and are there any important emails I should be aware of?"];
     stream := false |}.

Definition cell_tasks : Py.cell := fun ext =>
  retrival <- create ext (request_tasks ext) ;;
  assign "retrival" retrival ;;;
  print (VStr (model_dump_json ext 4 retrival)).

End Assistant.

(** *** Example 4: decomposing questions *)
Module Decomposition.

Definition Question : annotation :=
  AModel "Question"
    [("id", (AInt, Field None (Some "A unique identifier for the question") []));
     ("query", (AStr, Field None (Some "The question decomposited as much as possible") []));
     ("subquestions",
      (AList AInt,
       Field (Some list_factory)
         (Some "The subquestions that this question is composed of") []))].

Definition QueryPlan : annotation :=
  AModel "QueryPlan"
    [("root_question", (AStr, Field None (Some "The root question that the user asked") []));
     ("plan",
      (AList Question,
       Field None (Some "The plan to answer the root question and its subquestions") []))].

Definition request : Py.request :=
  {| model := gpt4;
     response_model := QueryPlan;
     messages :=
       [system "You are a query understanding system capable of decomposing a question into subquestions.";
        user "What is the difference between the population of jason's home country and canada?"];
     stream := false |}.

Definition cell : Py.cell := fun ext =>
  retrival <- create ext request ;;
  assign "retrival" retrival ;;;
  print (VStr (model_dump_json ext 4 retrival)).

End Decomposition.

(** A cell of imports and class statements: it calls nothing and shows
    nothing. *)
Definition declarations : Py.cell := fun _ => ret tt.

(** The code cells, in the order of the notebook. *)
Definition cells : list Py.cell :=
  [declarations; declarations; Extractions.cell; declarations; Temporal.cell;
   ChainOfThought.cell; declarations; Assistant.cell; Assistant.cell_tasks;
   Decomposition.cell].

End Rag.

(** ** .pre-commit-config.yaml *)

Module PreCommit.

Record hook := {
  id : string;
  name : option string;
  entry : option string;
  language : option string;
  types : list string;
  args : list string;
  pass_filenames : option bool
}.

Record repo := {
  repo_url : string;
  rev : option string;
  hooks : list hook
}.

Definition plain (id : string) (args : list string) : hook :=
  {| id := id; name := None; entry := None; language := None; types := [];
     args := args; pass_filenames := None |}.

(** The folded scalar of [entry]: its lines joined by single spaces, one
    line feed at the end. *)
Definition ci_type_mypy_entry : string :=
  "bash -c 'set -o pipefail; export CUSTOM_PACKAGES=" +:+ Rag.dq +:+
  "instructor/cli/cli.py instructor/cli/usage.py" +:+ Rag.dq +:+
  " && export CUSTOM_FLAGS=" +:+ Rag.dq +:+
  "--python-version=3.9 --color-output --no-pretty" +:+ Rag.dq +:+
  " && curl -sSL https://raw.githubusercontent.com/gao-hongnan/omniverse/continuous-integration/scripts/devops/continuous-integration/type_mypy.sh | bash'"
  +:+ Rag.lf.

Definition repos : list repo :=
  [ {| repo_url := "https://github.com/astral-sh/ruff-pre-commit";
       rev := Some "v0.1.7";
       hooks := [plain "ruff" ["--fix"]; plain "ruff-format" []] |};
    {| repo_url := "local";
       rev := None;
       hooks :=
         [ {| id := "ci_type_mypy";
              name := Some "Static Type Check";
              entry := Some ci_type_mypy_entry;
              language := Some "system";
              types := ["python"];
              args := [];
              pass_filenames := Some false |} ] |} ].

End PreCommit.

(** ** Reading the configuration *)

Module Shell.

(** The text after the first occurrence of [pat], and before it. *)
Definition after (pat s : string) : option string :=
  n ← String.index 0 pat s;
  Some (String.substring (n + String.length pat)
                         (String.length s - (n + String.length pat)) s).

Definition before (pat s : string) : option string :=
  n ← String.index 0 pat s; Some (String.substring 0 n s).

(** The script handed to [bash -c '...']. *)
Definition script (entry : string) : option string :=
  after "bash -c '" entry ≫= before "'".

(** The value of [export var="..."]. *)
Definition exported (var script : string) : option string :=
  after ("export " +:+ var +:+ "=" +:+ Rag.dq) script ≫= before Rag.dq.

(** The stages of a pipeline: the text between the bars. *)
Fixpoint stages_from (current : string) (s : string) : list string :=
  match s with
  | EmptyString => [String.rev current]
  | String c rest =>
      if Ascii.eqb c "|" then String.rev current :: stages_from EmptyString rest
      else stages_from (String c current) rest
  end.

Definition stages (s : string) : list string := stages_from EmptyString s.

End Shell.

(** ** Runs of a cell *)

(** A cell started on a namespace and a heap, with nothing shown yet. *)
Definition start (g : gmap string value) (h : gmap nat (list value)) : state :=
  {| globals := g; heap := h; trace := [] |}.

Definition events (c : Py.cell) (ext : external) (g : gmap string value)
    (h : gmap nat (list value)) : list event :=
  trace (snd (c ext (start g h))).

Definition outcome (c : Py.cell) (ext : external) (g : gmap string value)
    (h : gmap nat (list value)) : exn + unit :=
  fst (c ext (start g h)).

Definition final (c : Py.cell) (ext : external) (g : gmap string value)
    (h : gmap nat (list value)) : state :=
  snd (c ext (start g h)).

Definition all_cells : list Py.cell := Tips.cells ++ Rag.cells.

(** The first letter made upper case, the rest as it is. *)
Definition capitalize_first (s : string) : string :=
  match s with
  | EmptyString => EmptyString
  | String c rest => String (to_upper c) rest
  end.

(** ** Instances of the declared classes *)

(** The inner loop of [validate] over a list. *)
Definition validate_each (item : annotation) : list value -> M (list value) :=
  fix each (l : list value) : M (list value) :=
    match l with
    | [] => ret []
    | x :: l' => y <- Validation.validate item x ;; ys <- each l' ;; ret (y :: ys)
    end.

(** A [Property] of the cell that limits the length of lists, as keyword
    arguments and as the instance built from them. *)
Definition property_obj (cls : string) (p : string * string * string) : value :=
  let '(index, key, val) := p in
  VObj cls [("index", VStr index); ("key", VStr key); ("value", VStr val)].

(** Snake case: lower-case letters, digits and underscores. *)
Definition is_snake_char (c : ascii) : bool :=
  is_lower c || Ascii.eqb c "_"
  || ((48 <=? nat_of_ascii c)%nat && (nat_of_ascii c <=? 57)%nat).

Fixpoint is_snake_case (s : string) : bool :=
  match s with
  | EmptyString => true
  | String c rest => is_snake_char c && is_snake_case rest
  end.

(** The declaration of [Character.properties] as it would be with its
    length enforced, for comparison. *)
Definition Character_exactly_5 : annotation :=
  AModel "Character"
    [("age", (AInt, bare)); ("name", (AStr, bare)); ("house", (Tips.houses, bare));
     ("properties",
      (AList Tips.LimitedLists.Property,
       Field None
         (Some "Numbered list of arbitrary extracted properties, should be exactly 5")
         [MinLength 5; MaxLength 5]))].

(** The inner loop of [validate] over the declared fields. *)
Definition validate_fields (kwargs : list (string * value)) :
    list (string * (annotation * FieldInfo)) -> M (list (string * value)) :=
  fix each (fs : list (string * (annotation * FieldInfo))) : M (list (string * value)) :=
    match fs with
    | [] => ret []
    | (name, (ann, info)) :: fs' =>
        x <- match assoc name kwargs with
             | Some given => y <- Validation.validate ann given ;; Validation.check info y
             | None => Validation.default info
             end ;;
        rest <- each fs' ;;
        ret ((name, x) :: rest)
    end.

(** ** The friends graph, as data *)

(** A user as the graph cell reads it: id, name, friends. *)
Definition user_obj (u : Z * string * list Z) : value :=
  let '(id, name, friends) := u in Tips.Relationships.character_obj id name friends.

Definition user_id (u : Z * string * list Z) : Z := u.1.1.

Definition user_friends (u : Z * string * list Z) : list Z := u.2.

Definition nodes_of (users : list (Z * string * list Z)) : list dot_stmt :=
  (fun u => Node (pretty (user_id u)) u.1.2) <$> users.

(** The edges of one user: one per friend whose id is greater. *)
Definition edges_from (id : Z) (friends : list Z) : list dot_stmt :=
  (fun f => Edge (pretty id) (pretty f)) <$> filter (fun f => f > id) friends.

Definition edges_of (users : list (Z * string * list Z)) : list dot_stmt :=
  users ≫= (fun u => edges_from (user_id u) (user_friends u)).

Global Instance dot_stmt_eq_dec : EqDecision dot_stmt.
Proof. solve_decision. Defined.

(** How many edges of a body join [x] and [y], in either direction. *)
Definition edges_between (x y : Z) (body : list dot_stmt) : nat :=
  List.length (filter (fun st => st = Edge (pretty x) (pretty y) ∨ st = Edge (pretty y) (pretty x))
                 body).

(** The Digraph bound to [dot] has this body. *)
Definition dot_is (s : state) (body : list dot_stmt) : Prop :=
  globals s !! "dot" = Some (VDigraph body).

(** A service that answers every request with [reply]; dumps are the
    identity, other renderings empty. *)
Definition ext_of (reply : value) : external :=
  {| llm := fun _ => inr reply;
     model_dump := fun v => v;
     model_dump_json := fun _ _ => EmptyString;
     obj_str := fun _ => EmptyString;
     today := "2023-11-18" |}.

(** The answer the notebook shows for the five kids. *)
Definition five_kids : list (Z * string * list Z) :=
  [(1, "Harry Potter", [2; 3; 4; 5]);
   (2, "Hermione Granger", [1; 3; 4; 5]);
   (3, "Ron Weasley", [1; 2; 4; 5]);
   (4, "Draco Malfoy", [5]);
   (5, "Neville Longbottom", [1; 2; 3; 4])].

(** ** Query plans, as data *)

Definition question_obj (q : Z * string * list Z) : value :=
  let '(id, query, subquestions) := q in
  VObj "Question"
    [("id", VInt id); ("query", VStr query); ("subquestions", VList (VInt <$> subquestions))].

Definition query_plan_obj (root_question : string) (plan : list (Z * string * list Z)) : value :=
  VObj "QueryPlan"
    [("root_question", VStr root_question); ("plan", VList (question_obj <$> plan))].

(** The plan the notebook shows. *)
Definition shown_plan : list (Z * string * list Z) :=
  [(1, "What is Jason's home country?", []);
   (2, "What is the population of Canada?", []);
   (3, "What is the population of {Jason's home country}?", [1]);
   (4, "What is the difference between the population of {Jason's home country} and the population of Canada?",
    [2; 3])].

(** Every subquestion of a plan is the id of one of its questions. *)
Definition linked (plan : list (Z * string * list Z)) : bool :=
  forallb (fun q => forallb (fun sub => bool_decide (sub ∈ (fun q' => q'.1.1) <$> plan)) q.2)
          plan.

(** ** What a run shows *)

Definition is_call (ev : event) : bool :=
  match ev with Call _ => true | _ => false end.


(** A program that shows nothing and leaves the heap and [resp] alone. *)
Definition quiet {A} (m : M A) : Prop :=
  ∀ s, trace (snd (m s)) = trace s ∧ heap (snd (m s)) = heap s
       ∧ globals (snd (m s)) !! "resp" = globals s !! "resp".

(** The items a loop over [v] goes through. *)
Definition items_of (h : gmap nat (list value)) (v : value) : list value :=
  match v with
  | VList l => l
  | VGen l _ => l
  | VRef a => default [] (h !! a)
  | _ => []
  end.

(** How a loop over [v] ends when its body does not raise. *)
Definition loop_end (h : gmap nat (list value)) (v : value) : exn + unit :=
  match v with
  | VList _ => inr tt
  | VGen _ (Some e) => inl e
  | VGen _ None => inr tt
  | VRef a => if h !! a is Some _ then inr tt else inl "TypeError"
  | _ => inl "TypeError"
  end.

(** A cell that calls the service once, at its start, and shows nothing
    before the answer: [req] is the request, [var] the global bound to the
    answer. *)
Definition one_call (c : Py.cell) (req : external -> request) (var : string) : Prop :=
  ∀ ext g h,
    ∃ outs, events c ext g h = Call (req ext) :: outs
            ∧ existsb is_call outs = false
            ∧ (∀ e, llm ext (req ext) = inl e → outcome c ext g h = inl e ∧ outs = [])
            ∧ (∀ v, llm ext (req ext) = inr v → globals (final c ext g h) !! var = Some v).

Definition no_call (c : Py.cell) : Prop :=
  ∀ ext g h, existsb is_call (events c ext g h) = false.

(** A cell that calls the service once, binds the answer to [var], shows
    [out] of it and ends as [fin] says; when the call raises it shows
    nothing and ends with what was raised. *)
Definition run_is (c : Py.cell) (req : external -> request) (var : string)
    (out : external -> gmap nat (list value) -> value -> list event)
    (fin : gmap nat (list value) -> value -> exn + unit) : Prop :=
  ∀ ext g h,
    events c ext g h
    = Call (req ext) :: match llm ext (req ext) with
                        | inl _ => []
                        | inr v => out ext h v
                        end
    ∧ outcome c ext g h
      = match llm ext (req ext) with
        | inl e => inl e
        | inr v => fin h v
        end
    ∧ (∀ v, llm ext (req ext) = inr v → globals (final c ext g h) !! var = Some v).






(** A service whose every call raises [e]. *)
Definition ext_raising (e : exn) : external :=
  {| llm := fun _ => inl e;
     model_dump := fun v => v;
     model_dump_json := fun _ _ => EmptyString;
     obj_str := fun _ => EmptyString;
     today := "2023-11-18" |}.

(** ** More instances, as data *)

(** An [Extraction] with all four fields. *)
Definition extraction_obj (cls topic summary : string) (questions keywords : list string)
    : value :=
  VObj cls
    [("topic", VStr topic); ("summary", VStr summary);
     ("hypothetical_questions", VList (VStr <$> questions));
     ("keywords", VList (VStr <$> keywords))].

(** A [Character] of the cells that give the house as a Literal. *)
Definition literal_character_obj (cls : string) (age : Z) (name house : string) : value :=
  VObj cls [("age", VInt age); ("name", VStr name); ("house", VStr house)].

(** A [Property] of the cell of arbitrary properties. *)
Definition key_value_obj (cls : string) (p : string * string) : value :=
  VObj cls [("key", VStr p.1); ("value", VStr p.2)].

(** A [Character] of the cell of arbitrary properties, as keyword arguments. *)
Definition character_kwargs (age : Z) (name house : string) (properties : list value)
    : list (string * value) :=
  [("age", VInt age); ("name", VStr name); ("house", VStr house);
   ("properties", VList properties)].

(** The loop cells of the tips notebook, each with its request. *)
Definition print_loops : list (Py.cell * request) :=
  [(Tips.MultipleEntities.cell, Tips.MultipleEntities.request);
   (Tips.MultipleEntities.cell_stream, Tips.MultipleEntities.request_stream);
   (Tips.Relationships.cell, Tips.Relationships.request)].

(** The items of an answer that is a list or a generator, and what the
    generator raises at its end. *)
Definition answer_items (v : value) : option (list value * option exn) :=
  match v with
  | VList l => Some (l, None)
  | VGen l failure => Some (l, failure)
  | _ => None
  end.

(** How a loop ends that no item interrupts. *)
Definition ends_with (failure : option exn) : exn + unit :=
  match failure with Some e => inl e | None => inr tt end.

(** The namespace after a loop: the loop variable was bound to each item in
    turn. *)
Definition bound_in_turn (x : string) (items : list value) (g : gmap string value)
    : gmap string value :=
  foldl (fun g item => <[x := item]> g) g items.

(** A [Question] given by id and query only, as keyword arguments, and the
    instance built from it, with the list object at [a] for its
    subquestions. *)
Definition question_kwargs (q : Z * string) : value :=
  VObj "dict" [("id", VInt q.1); ("query", VStr q.2)].

Definition question_with_list (q : Z * string) (a : nat) : value :=
  VObj "Question" [("id", VInt q.1); ("query", VStr q.2); ("subquestions", VRef a)].

(** ** Instances and their dumps *)

(** [v] is an instance of the model class that [a] declares.  The dumps
    are methods of such instances. *)
Definition instance_of (a : annotation) (v : value) : bool :=
  match a, v with
  | AModel cls _, VObj cls' _ => bool_decide (cls = cls')
  | _, _ => false
  end.

(** [BaseModel.model_dump()]: an instance becomes the dict of its fields,
    each dumped in turn; Enum members, dates, strings and numbers stay as
    they are. *)
Fixpoint dump (v : value) : value :=
  match v with
  | VObj _ attrs =>
      VObj "dict"
        ((fix fields (l : list (string * value)) : list (string * value) :=
            match l with
            | [] => []
            | (k, x) :: l => (k, dump x) :: fields l
            end) attrs)
  | VList items =>
      VList ((fix each (l : list value) : list value :=
                match l with
                | [] => []
                | x :: l => dump x :: each l
                end) items)
  | _ => v
  end.

Definition quoted (s : string) : string := Rag.dq +:+ s +:+ Rag.dq.

Fixpoint spaces (n : nat) : string :=
  match n with
  | O => EmptyString
  | S n => " " +:+ spaces n
  end.

Definition two_digits (z : Z) : string :=
  if bool_decide (z < 10) then "0" +:+ pretty z else pretty z.

(** [date.isoformat()], for the years of four digits. *)
Definition isoformat (y m d : Z) : string :=
  pretty y +:+ "-" +:+ two_digits m +:+ "-" +:+ two_digits d.

(** [BaseModel.model_dump_json(indent=..)], for the values an answer is
    made of: instances, lists, strings, integers, dates, Enum members (by
    value) and None, at nesting depth [level].  Strings are written as they
    are: the answers here hold no character that JSON escapes.  A list
    object of the heap, a generator or a graph is no part of an answer; the
    last case is there to make the function total. *)
Fixpoint json (indent level : nat) (v : value) : string :=
  let inner := Rag.lf +:+ spaces (indent * S level) in
  let outer := Rag.lf +:+ spaces (indent * level) in
  match v with
  | VNone => "null"
  | VInt z => pretty z
  | VStr s => quoted s
  | VDate y m d => quoted (isoformat y m d)
  | VEnum _ _ val => quoted val
  | VList [] => "[]"
  | VList (x :: items) =>
      "[" +:+ inner +:+ json indent (S level) x
      +:+ (fix rest (l : list value) : string :=
             match l with
             | [] => EmptyString
             | y :: l => "," +:+ inner +:+ json indent (S level) y +:+ rest l
             end) items
      +:+ outer +:+ "]"
  | VObj _ [] => "{}"
  | VObj _ ((k, x) :: attrs) =>
      "{" +:+ inner +:+ quoted k +:+ ": " +:+ json indent (S level) x
      +:+ (fix rest (l : list (string * value)) : string :=
             match l with
             | [] => EmptyString
             | (k', y) :: l =>
                 "," +:+ inner +:+ quoted k' +:+ ": " +:+ json indent (S level) y +:+ rest l
             end) attrs
      +:+ outer +:+ "}"
  | VRef _ | VGen _ _ | VDigraph _ => "null"
  end.

(** A service that answers every request with [answer], with pydantic's
    dumps. *)
Definition ext_answering (answer : value) : external :=
  {| llm := fun _ => inr answer;
     model_dump := dump;
     model_dump_json := fun indent v => json (Z.to_nat indent) 0 v;
     obj_str := fun _ => EmptyString;
     today := "2023-11-18" |}.

(** The answer the notebook shows under the cell that asks for a chain of
    thought. *)
Definition shown_query : value :=
  VObj "Query"
    [("rewritten_query", VStr "recent developments in artificial intelligence");
     ("published_daterange",
      VObj "DateRange"
        [("chain_of_thought",
          VStr "Given that it's currently late 2023, a recent timeframe would ideally be within the last year to ensure the developments are current. Therefore, a suitable date range for recent AI developments could start from late 2022 to the present date in 2023.");
         ("start", VDate 2022 11 18);
         ("end", VDate 2023 11 18)])].

(** What the notebook shows for it. *)
Definition shown_query_text : string :=
  String.concat Rag.lf
    ["{";
     "    " +:+ quoted "rewritten_query" +:+ ": " +:+ quoted "recent developments in artificial intelligence" +:+ ",";
     "    " +:+ quoted "published_daterange" +:+ ": {";
     "        " +:+ quoted "chain_of_thought" +:+ ": " +:+ quoted "Given that it's currently late 2023, a recent timeframe would ideally be within the last year to ensure the developments are current. Therefore, a suitable date range for recent AI developments could start from late 2022 to the present date in 2023." +:+ ",";
     "        " +:+ quoted "start" +:+ ": " +:+ quoted "2022-11-18" +:+ ",";
     "        " +:+ quoted "end" +:+ ": " +:+ quoted "2023-11-18";
     "    }";
     "}"].

(** The question the last cell of the notebook asks to decompose. *)
Definition root_question : string :=
  "What is the difference between the population of jason's home country and canada?".

(** What the notebook shows under the cell that decomposes a question. *)
Definition shown_plan_text : string :=
  String.concat Rag.lf
    ["{";
     "    " +:+ quoted "root_question" +:+ ": " +:+ quoted "What is the difference between the population of jason's home country and canada?" +:+ ",";
     "    " +:+ quoted "plan" +:+ ": [";
     "        {";
     "            " +:+ quoted "id" +:+ ": 1,";
     "            " +:+ quoted "query" +:+ ": " +:+ quoted "What is Jason's home country?" +:+ ",";
     "            " +:+ quoted "subquestions" +:+ ": []";
     "        },";
     "        {";
     "            " +:+ quoted "id" +:+ ": 2,";
     "            " +:+ quoted "query" +:+ ": " +:+ quoted "What is the population of Canada?" +:+ ",";
     "            " +:+ quoted "subquestions" +:+ ": []";
     "        },";
     "        {";
     "            " +:+ quoted "id" +:+ ": 3,";
     "            " +:+ quoted "query" +:+ ": " +:+ quoted "What is the population of {Jason's home country}?" +:+ ",";
     "            " +:+ quoted "subquestions" +:+ ": [";
     "                1";
     "            ]";
     "        },";
     "        {";
     "            " +:+ quoted "id" +:+ ": 4,";
     "            " +:+ quoted "query" +:+ ": " +:+ quoted "What is the difference between the population of {Jason's home country} and the population of Canada?" +:+ ",";
     "            " +:+ quoted "subquestions" +:+ ": [";
     "                2,";
     "                3";
     "            ]";
     "        }";
     "    ]";
     "}"].

(** An answer to the first question of the personal assistant: a
    [Retrival] with one search, of the calendar, for today. *)
Definition assistant_answer : value :=
  VObj "Retrival"
    [("queries",
      VList
        [VObj "SearchClient"
           [("query", VStr "schedule");
            ("keywords", VList (VStr <$> ["appointments"; "meetings"; "schedule"; "events"]));
            ("email", VStr "jason.assistant@busybot.com");
            ("source", VStr "calendar");
            ("date_range",
             VObj "DateRange"
               [("chain_of_thought",
                 VStr "The user asks about today, so the range is today only.");
                ("start", VDate 2023 11 18);
                ("end", VDate 2023 11 18)])]])].

(** What [model_dump_json(indent=4)] gives for it. *)
Definition assistant_answer_text : string :=
  String.concat Rag.lf
    ["{";
     "    " +:+ quoted "queries" +:+ ": [";
     "        {";
     "            " +:+ quoted "query" +:+ ": " +:+ quoted "schedule" +:+ ",";
     "            " +:+ quoted "keywords" +:+ ": [";
     "                " +:+ quoted "appointments" +:+ ",";
     "                " +:+ quoted "meetings" +:+ ",";
     "                " +:+ quoted "schedule" +:+ ",";
     "                " +:+ quoted "events";
     "            ],";
     "            " +:+ quoted "email" +:+ ": " +:+ quoted "jason.assistant@busybot.com" +:+ ",";
     "            " +:+ quoted "source" +:+ ": " +:+ quoted "calendar" +:+ ",";
     "            " +:+ quoted "date_range" +:+ ": {";
     "                " +:+ quoted "chain_of_thought" +:+ ": " +:+ quoted "The user asks about today, so the range is today only." +:+ ",";
     "                " +:+ quoted "start" +:+ ": " +:+ quoted "2023-11-18" +:+ ",";
     "                " +:+ quoted "end" +:+ ": " +:+ quoted "2023-11-18";
     "            }";
     "        }";
     "    ]";
     "}"].

(** The two extractions the notebook shows under the extraction cell, as
    instances of [cls]. *)
Definition shown_extractions (cls : string) : list value :=
  [extraction_obj cls
     "Simple Retriever-Augmented Generation (RAG)"
     "Simple RAG is an implementation that embeds user queries for a single embedding search in a vector database. Although straightforward, it struggles with complex queries and varied data sources because of its basic framework and query-document mismatch issues."
     ["What is the basic concept behind Simple RAG?";
      "Why might Simple RAG not perform well with complex queries?";
      "In what ways does Simple RAG's embedding search fall short?"]
     ["Simple RAG";
      "Retriever-Augmented Generation";
      "user queries";
      "embedding search";
      "vector database";
      "query-document mismatch"];
   extraction_obj cls
     "Limitations of Simple RAG"
     "The limitations of Simple RAG include query-document mismatch, reliance on a monolithic search backend, restrictions to simple text searches, and limited planning ability, which results in suboptimal outcomes when handling nuanced or context-specific queries."
     ["What kind of limitations does Simple RAG face?";
      "How does a monolithic search backend affect Simple RAG's performance?";
      "Can Simple RAG handle complex, context-specific queries effectively?"]
     ["limitations";
      "Simple RAG";
      "query-document mismatch";
      "monolithic search backend";
      "text search limitations";
      "limited planning ability"]].

(** * Properties *)

(** ** The dumps *)

(** The dumps, checked against what the notebook shows. *)
Example json_of_the_shown_query : json 4 0 shown_query = shown_query_text.
Proof. vm_compute. reflexivity. Qed.

Example json_of_the_shown_plan :
  json 4 0 (query_plan_obj root_question shown_plan) = shown_plan_text.
Proof. vm_compute. reflexivity. Qed.

Example json_of_the_assistant_answer : json 4 0 assistant_answer = assistant_answer_text.
Proof. vm_compute. reflexivity. Qed.

Example dump_of_the_shown_extractions :
  dump <$> shown_extractions "Extraction" = shown_extractions "dict".
Proof. reflexivity. Qed.

(** The answers used below pass the validation of their response model. *)
Example shown_query_is_a_query (s : state) :
  Validation.validate Rag.ChainOfThought.Query shown_query s = (inr shown_query, s).
Proof. reflexivity. Qed.

Example assistant_answer_is_a_retrival (s : state) :
  Validation.validate Rag.Assistant.Retrival assistant_answer s = (inr assistant_answer, s).
Proof. reflexivity. Qed.

Example shown_extractions_are_extractions (s : state) :
  validate_each Rag.Extractions.Extraction (shown_extractions "Extraction") s
  = (inr (shown_extractions "Extraction"), s).
Proof. reflexivity. Qed.

(** ** The greeting *)

Section SayHello.
Import Tips.Classification.
Variable ext : external.

Example say_hello_harry :
  events cell_say_hello ext {["resp" := character_obj 17 "Harry Potter" Gryffindor]} ∅
  = [Print (VStr "Hello, I'm Harry Potter, I'm 17 years old and I'm from Gryffindor")].
Proof. reflexivity. Qed.

Lemma title_member_value (h : HouseMember) :
  title (member_value h) = capitalize_first (member_value h).
Proof. destruct h; reflexivity. Qed.

End SayHello.

(** C5: [House] has the four members with the lower-case values
    gryffindor, hufflepuff, ravenclaw and slytherin, and on every
    [Character] of that cell, whatever its age, name and house, [say_hello]
    returns normally and prints exactly one line,
    [Hello, I'm {name}, I'm {age} years old and I'm from {H}], with the age
    as its decimal numeral and H the value of the house with its first
    letter made upper case. *)
Theorem say_hello_prints (ext : external) (age : Z) (name : string)
    (h : Tips.Classification.HouseMember) (s : state) :
  Tips.Classification.House
  = AEnum "House" [("Gryffindor", "gryffindor"); ("Hufflepuff", "hufflepuff");
                   ("Ravenclaw", "ravenclaw"); ("Slytherin", "slytherin")]
  ∧ Tips.Classification.say_hello ext (Tips.Classification.character_obj age name h) s
    = (inr tt,
       {| globals := globals s; heap := heap s;
          trace := trace s ++
            [Print (VStr ("Hello, I'm " +:+ name +:+ ", I'm " +:+ pretty age
                          +:+ " years old and I'm from "
                          +:+ capitalize_first (Tips.Classification.member_value h)))] |}).
Proof.
  split; [reflexivity|].
  destruct h; reflexivity.
Qed.

(** ** The pre-commit configuration *)

(** C3: the configuration has two repositories.  The first is
    ruff-pre-commit at rev v0.1.7 with the hooks ruff (args --fix) and
    ruff-format.  The second is local, with the single hook named
    Static Type Check, whose entry exports CUSTOM_PACKAGES as the two paths
    instructor/cli/cli.py and instructor/cli/usage.py and ends in a
    pipeline of two stages, curl -sSL of a remote type_mypy.sh into bash;
    pass_filenames is false. *)
Theorem pre_commit_delegates :
  (PreCommit.repo_url <$> PreCommit.repos)
  = ["https://github.com/astral-sh/ruff-pre-commit"; "local"]
  ∧ (PreCommit.rev <$> PreCommit.repos) = [Some "v0.1.7"; None]
  ∧ ((fun r => (fun k => (PreCommit.id k, PreCommit.args k)) <$> PreCommit.hooks r)
       <$> PreCommit.repos)
    = [[("ruff", ["--fix"]); ("ruff-format", [])]; [("ci_type_mypy", [])]]
  ∧ ((fun r => (fun k => (PreCommit.name k, PreCommit.pass_filenames k))
                 <$> PreCommit.hooks r) <$> PreCommit.repos)
    = [[(None, None); (None, None)]; [(Some "Static Type Check", Some false)]]
  ∧ (String.words <$> (Shell.script PreCommit.ci_type_mypy_entry
                  ≫= Shell.exported "CUSTOM_PACKAGES"))
    = Some ["instructor/cli/cli.py"; "instructor/cli/usage.py"]
  ∧ ((fun sc => String.words <$> Shell.stages sc) <$> Shell.script PreCommit.ci_type_mypy_entry)
    = Some [["set"; "-o"; "pipefail;";
             "export"; "CUSTOM_PACKAGES=" +:+ Rag.dq +:+ "instructor/cli/cli.py";
             "instructor/cli/usage.py" +:+ Rag.dq; "&&";
             "export"; "CUSTOM_FLAGS=" +:+ Rag.dq +:+ "--python-version=3.9";
             "--color-output"; "--no-pretty" +:+ Rag.dq; "&&";
             "curl"; "-sSL";
             "https://raw.githubusercontent.com/gao-hongnan/omniverse/continuous-integration/scripts/devops/continuous-integration/type_mypy.sh"];
            ["bash"]].
Proof. repeat split; vm_compute; reflexivity. Qed.

(** ** The monad *)

Section Monad.
Context {A B : Type}.

Lemma run_bind (m : M A) (k : A -> M B) (s s' : state) (a : A) :
  m s = (inr a, s') -> (x <- m ;; k x) s = k a s'.
Proof. intros H. unfold bind. rewrite H. reflexivity. Qed.

Lemma run_bind_raise (m : M A) (k : A -> M B) (s s' : state) (e : exn) :
  m s = (inl e, s') -> (x <- m ;; k x) s = (inl e, s').
Proof. intros H. unfold bind. rewrite H. reflexivity. Qed.

End Monad.

Lemma for_each_cons (x : string) (item : value) (l : list value)
    (body : value -> M unit) :
  for_each x (item :: l) body = (assign x item ;;; body item ;;; for_each x l body).
Proof. reflexivity. Qed.

(** ** Instances built from the declarations *)

Section Construct.
Import Validation.

Lemma validate_list (item : annotation) (l : list value) :
  validate (AList item) (VList l)
  = (validated <- validate_each item l ;; ret (VList validated)).
Proof. reflexivity. Qed.

Lemma validate_model (cls c : string) (fields : list (string * (annotation * FieldInfo)))
    (kwargs : list (string * value)) :
  validate (AModel cls fields) (VObj c kwargs)
  = (attrs <- validate_fields kwargs fields ;; ret (VObj cls attrs)).
Proof. reflexivity. Qed.

Lemma validate_fields_given kwargs name ann info fs given :
  assoc name kwargs = Some given ->
  validate_fields kwargs ((name, (ann, info)) :: fs)
  = (x <- (y <- validate ann given ;; check info y) ;;
     rest <- validate_fields kwargs fs ;;
     ret ((name, x) :: rest)).
Proof. intros H. simpl. rewrite H. reflexivity. Qed.

Lemma validate_fields_missing kwargs name ann info fs :
  assoc name kwargs = None ->
  validate_fields kwargs ((name, (ann, info)) :: fs)
  = (x <- default info ;;
     rest <- validate_fields kwargs fs ;;
     ret ((name, x) :: rest)).
Proof. intros H. simpl. rewrite H. reflexivity. Qed.

Lemma validate_each_fixed (item : annotation) (l : list value) (s : state) :
  Forall (fun x => validate item x s = (inr x, s)) l ->
  validate_each item l s = (inr l, s).
Proof.
  induction 1 as [|x l Hx _ IH]; [reflexivity|].
  simpl. unfold bind at 1. rewrite Hx.
  unfold bind at 1. fold (validate_each item). rewrite IH. reflexivity.
Qed.

(** A field that is given, passes its annotation unchanged and has no
    constraint. *)
Lemma validate_fields_step kwargs name ann descr fs given s rest :
  assoc name kwargs = Some given ->
  validate ann given s = (inr given, s) ->
  validate_fields kwargs fs s = (inr rest, s) ->
  validate_fields kwargs ((name, (ann, Field None descr [])) :: fs) s
  = (inr ((name, given) :: rest), s).
Proof.
  intros Hk Hv Hrest. rewrite (validate_fields_given _ _ _ _ _ _ Hk).
  erewrite run_bind; [|erewrite run_bind; [reflexivity|exact Hv]].
  erewrite run_bind; [reflexivity|exact Hrest].
Qed.

End Construct.

Section ConstructProperty.
Import Validation.
Variable s : state.

Lemma property_fixed (p : string * string * string) :
  validate Tips.LimitedLists.Property (property_obj "Property" p) s
  = (inr (property_obj "Property" p), s).
Proof. destruct p as [[index key] val]. reflexivity. Qed.

Lemma properties_fixed (ps : list (string * string * string)) :
  validate_each Tips.LimitedLists.Property (property_obj "Property" <$> ps) s
  = (inr (property_obj "Property" <$> ps), s).
Proof.
  apply validate_each_fixed, Forall_fmap, Forall_forall.
  intros p _. apply property_fixed.
Qed.

Example not_snake_case_is_accepted :
  is_snake_case "Patronus Form" = false
  ∧ fst (construct Tips.Properties.Property
           [("key", VStr "Patronus Form"); ("value", VStr "Doe")] s)
    = inr (VObj "Property" [("key", VStr "Patronus Form"); ("value", VStr "Doe")]).
Proof. split; reflexivity. Qed.

(** With the length as a constraint of the field, four properties are
    refused: the check is in the model, the declaration does not ask for it. *)
Example four_refused_under_a_constraint :
  fst (construct Character_exactly_5
         [("age", VInt 38); ("name", VStr "Severus Snape"); ("house", VStr "Slytherin");
          ("properties",
           VList (property_obj "Property"
                    <$> [("1", "patronus", "Doe"); ("2", "position", "Potions Master");
                         ("3", "loyalty", "Hogwarts"); ("4", "skills", "Occlumency")]))] s)
  = inl "ValidationError".
Proof. reflexivity. Qed.

End ConstructProperty.

(** C2: the declarations carry their hints as descriptions and carry no
    constraint, so building an instance checks the types only: a
    [Property] is built from any key, snake case or not, and a [Character]
    from any number of properties, five or not; the state is left as it
    was. *)
Theorem descriptions_do_not_validate (s : state) (index key val : string)
    (age : Z) (name house : string) (ps : list (string * string * string))
    (Hhouse : house ∈ ["Gryffindor"; "Hufflepuff"; "Ravenclaw"; "Slytherin"]) :
  field_info Tips.Properties.Property "key" = Some (Field None (Some "Must be snake case") [])
  ∧ field_info Tips.LimitedLists.Property "key" = Some (Field None (Some "Must be snake case") [])
  ∧ field_info Tips.LimitedLists.Character "properties"
    = Some (Field None
              (Some "Numbered list of arbitrary extracted properties, should be exactly 5") [])
  ∧ Validation.construct Tips.Properties.Property [("key", VStr key); ("value", VStr val)] s
    = (inr (VObj "Property" [("key", VStr key); ("value", VStr val)]), s)
  ∧ Validation.construct Tips.LimitedLists.Property
      [("index", VStr index); ("key", VStr key); ("value", VStr val)] s
    = (inr (property_obj "Property" (index, key, val)), s)
  ∧ Validation.construct Tips.LimitedLists.Character
      [("age", VInt age); ("name", VStr name); ("house", VStr house);
       ("properties", VList (property_obj "Property" <$> ps))] s
    = (inr (VObj "Character"
              [("age", VInt age); ("name", VStr name); ("house", VStr house);
               ("properties", VList (property_obj "Property" <$> ps))]), s).
Proof.
  repeat (split; [reflexivity|]).
  unfold Validation.construct, Tips.LimitedLists.Character.
  rewrite validate_model.
  erewrite run_bind; [reflexivity|].
  repeat (apply validate_fields_step; [reflexivity| |]); try reflexivity.
  - simpl. rewrite bool_decide_eq_true_2 by exact Hhouse. reflexivity.
  - rewrite validate_list. erewrite run_bind; [reflexivity|].
    apply properties_fixed.
Qed.

Lemma descriptions_do_not_validate_witness :
  "Slytherin" ∈ ["Gryffindor"; "Hufflepuff"; "Ravenclaw"; "Slytherin"]
  ∧ is_snake_case "Patronus Form" = false
  ∧ fst (Validation.construct Tips.LimitedLists.Character
      [("age", VInt 38); ("name", VStr "Severus Snape"); ("house", VStr "Slytherin");
       ("properties",
        VList (property_obj "Property"
                 <$> [("1", "Patronus Form", "Doe"); ("2", "position", "Potions Master")]))]
      init)
    = inr (VObj "Character"
             [("age", VInt 38); ("name", VStr "Severus Snape"); ("house", VStr "Slytherin");
              ("properties",
               VList (property_obj "Property"
                        <$> [("1", "Patronus Form", "Doe"); ("2", "position", "Potions Master")]))]).
Proof.
  assert (Hhouse : "Slytherin" ∈ ["Gryffindor"; "Hufflepuff"; "Ravenclaw"; "Slytherin"]).
  { apply list_elem_of_In. simpl. tauto. }
  split; [exact Hhouse|]. split; [reflexivity|].
  destruct (descriptions_do_not_validate init "1" "Patronus Form" "Doe" 38
              "Severus Snape" "Slytherin"
              [("1", "Patronus Form", "Doe"); ("2", "position", "Potions Master")] Hhouse)
    as (_ & _ & _ & _ & _ & Hc).
  rewrite Hc. reflexivity.
Defined.

(** ** Default factories *)

Section Defaults.
Import Validation.

Lemma new_list_fresh (s : state) :
  fresh (dom (heap s)) ∉ dom (heap s).
Proof. apply is_fresh. Qed.

Lemma for_in_empty_ref (x : string) (a : nat) (body : value -> M unit) (s : state) :
  heap s !! a = Some [] -> for_in x (VRef a) body s = (inr tt, s).
Proof. intros H. simpl. rewrite H. reflexivity. Qed.

End Defaults.

(** C9: an [Extraction] built without hypothetical_questions and keywords,
    and a [Question] built without subquestions, are built without error in
    every state; each of these fields holds a list object that did not
    exist before (two different ones in the [Extraction]) and that is
    empty, so a loop over it runs its body no time. *)
Theorem default_factory_gives_fresh_empty_lists (s : state) (topic summary query : string)
    (id : Z) (x : string) (body : value -> M unit) :
  let a1 := fresh (dom (heap s)) in
  let s1 := {| globals := globals s; heap := <[a1 := []]> (heap s); trace := trace s |} in
  let a2 := fresh (dom (heap s1)) in
  let s2 := {| globals := globals s; heap := <[a2 := []]> (heap s1); trace := trace s |} in
  Validation.construct Rag.Extractions.Extraction
    [("topic", VStr topic); ("summary", VStr summary)] s
  = (inr (VObj "Extraction"
            [("topic", VStr topic); ("summary", VStr summary);
             ("hypothetical_questions", VRef a1); ("keywords", VRef a2)]), s2)
  ∧ (a1 ∉ dom (heap s)) ∧ (a2 ∉ dom (heap s)) ∧ a1 ≠ a2
  ∧ heap s2 !! a1 = Some [] ∧ heap s2 !! a2 = Some []
  ∧ for_in x (VRef a1) body s2 = (inr tt, s2)
  ∧ for_in x (VRef a2) body s2 = (inr tt, s2)
  ∧ Validation.construct Rag.Decomposition.Question
      [("id", VInt id); ("query", VStr query)] s
    = (inr (VObj "Question"
              [("id", VInt id); ("query", VStr query); ("subquestions", VRef a1)]), s1)
  ∧ heap s1 !! a1 = Some []
  ∧ for_in x (VRef a1) body s1 = (inr tt, s1).
Proof.
  intros a1 s1 a2 s2.
  assert (H1 : a1 ∉ dom (heap s)) by apply new_list_fresh.
  assert (H2 : a2 ∉ dom (heap s1)) by apply new_list_fresh.
  assert (Hne : a1 ≠ a2).
  { intros Heq. apply H2. rewrite <- Heq. simpl. rewrite dom_insert_L. set_solver. }
  assert (H2' : a2 ∉ dom (heap s)).
  { intros Hin. apply H2. simpl. rewrite dom_insert_L. set_solver. }
  assert (L1 : heap s1 !! a1 = Some []) by apply lookup_insert_eq.
  assert (L21 : heap s2 !! a1 = Some []).
  { simpl. rewrite lookup_insert_ne by congruence. apply lookup_insert_eq. }
  assert (L22 : heap s2 !! a2 = Some []) by apply lookup_insert_eq.
  repeat split; try assumption; try (apply for_in_empty_ref; assumption); reflexivity.
Qed.

(** ** The friends graph *)

Section Graph.
Import Tips.Relationships.
Variable ext : external.

Lemma dot_node_run (s : state) (body : list dot_stmt) (n l : string) :
  dot_is s body ->
  ∃ s', dot_node (VStr n) (VStr l) s = (inr tt, s')
        ∧ dot_is s' (body ++ [Node n l]) ∧ heap s' = heap s ∧ trace s' = trace s.
Proof.
  intros H. unfold dot_node, bind, load. rewrite H.
  eexists. split; [reflexivity|]. repeat split.
  unfold dot_is. simpl. apply lookup_insert_eq.
Qed.

Lemma dot_edge_run (s : state) (body : list dot_stmt) (t h : string) :
  dot_is s body ->
  ∃ s', dot_edge (VStr t) (VStr h) s = (inr tt, s')
        ∧ dot_is s' (body ++ [Edge t h]) ∧ heap s' = heap s ∧ trace s' = trace s.
Proof.
  intros H. unfold dot_edge, bind, load. rewrite H.
  eexists. split; [reflexivity|]. repeat split.
  unfold dot_is. simpl. apply lookup_insert_eq.
Qed.

(** Binding a loop variable leaves [dot] alone. *)
Lemma dot_is_assign (s : state) (body : list dot_stmt) (x : string) (v : value) :
  x ≠ "dot" -> dot_is s body -> dot_is (snd (assign x v s)) body.
Proof. intros Hx H. unfold dot_is. simpl. rewrite lookup_insert_ne by done. exact H. Qed.

Lemma create_nodes_each (users : list (Z * string * list Z)) :
  ∀ (s : state) (body : list dot_stmt),
    dot_is s body ->
    ∃ s', create_nodes ext (VList (user_obj <$> users)) s = (inr tt, s')
          ∧ dot_is s' (body ++ nodes_of users) ∧ heap s' = heap s ∧ trace s' = trace s.
Proof.
  unfold create_nodes. cbn [for_in].
  induction users as [|[[id name] friends] users IH]; intros s body H.
  - exists s. rewrite app_nil_r. done.
  - destruct (dot_node_run (snd (assign "user" (user_obj (id, name, friends)) s))
                body (pretty id) name) as (s2 & E2 & D2 & H2 & T2).
    { apply dot_is_assign; done. }
    destruct (IH s2 _ D2) as (s3 & E3 & D3 & H3 & T3).
    exists s3. split; [|split; [|split]].
    + rewrite fmap_cons, for_each_cons.
      erewrite run_bind by reflexivity.
      erewrite run_bind; [exact E3|].
      etransitivity; [|exact E2]. reflexivity.
    + unfold nodes_of. rewrite fmap_cons. fold (nodes_of users).
      rewrite cons_middle, app_assoc. exact D3.
    + rewrite H3, H2. reflexivity.
    + rewrite T3, T2. reflexivity.
Qed.

(** The inner loop, over the friends of one user. *)
Lemma create_edges_friends (id : Z) (name : string) (all : list Z) (friends : list Z) :
  ∀ (s : state) (body : list dot_stmt),
    dot_is s body ->
    ∃ s', for_each "friend_id" (VInt <$> friends)
            (fun friend_id =>
               id0 <- getattr (character_obj id name all) "id" ;;
               greater <- gt friend_id id0 ;;
               if greater : bool
               then id' <- getattr (character_obj id name all) "id" ;;
                    dot_edge (VStr (str ext id')) (VStr (str ext friend_id))
               else ret tt) s = (inr tt, s')
          ∧ dot_is s' (body ++ edges_from id friends)
          ∧ heap s' = heap s ∧ trace s' = trace s.
Proof.
  induction friends as [|f friends IH]; intros s body H.
  - exists s. rewrite app_nil_r. done.
  - rewrite fmap_cons, for_each_cons.
    destruct (decide (f > id)) as [Hgt|Hle].
    + destruct (dot_edge_run (snd (assign "friend_id" (VInt f) s))
                  body (pretty id) (pretty f)) as (s2 & E2 & D2 & H2 & T2).
      { apply dot_is_assign; done. }
      destruct (IH s2 _ D2) as (s3 & E3 & D3 & H3 & T3).
      exists s3. split; [|split; [|split]].
      * erewrite run_bind by reflexivity.
        erewrite run_bind; [exact E3|].
        transitivity ((if bool_decide (f > id)
                       then dot_edge (VStr (pretty id)) (VStr (pretty f))
                       else ret tt) (snd (assign "friend_id" (VInt f) s)));
          [reflexivity|].
        rewrite bool_decide_eq_true_2 by exact Hgt. exact E2.
      * unfold edges_from. rewrite filter_cons_True by exact Hgt.
        rewrite fmap_cons. fold (edges_from id friends).
        rewrite cons_middle, app_assoc. exact D3.
      * rewrite H3, H2. reflexivity.
      * rewrite T3, T2. reflexivity.
    + destruct (IH (snd (assign "friend_id" (VInt f) s)) body) as (s3 & E3 & D3 & H3 & T3).
      { apply dot_is_assign; done. }
      exists s3. split; [|split; [|split]].
      * erewrite run_bind by reflexivity.
        erewrite run_bind; [exact E3|].
        transitivity ((if bool_decide (f > id)
                       then dot_edge (VStr (pretty id)) (VStr (pretty f))
                       else ret tt) (snd (assign "friend_id" (VInt f) s)));
          [reflexivity|].
        rewrite bool_decide_eq_false_2 by exact Hle. reflexivity.
      * unfold edges_from. rewrite filter_cons_False by exact Hle. exact D3.
      * rewrite H3. reflexivity.
      * rewrite T3. reflexivity.
Qed.

Lemma create_edges_each (users : list (Z * string * list Z)) :
  ∀ (s : state) (body : list dot_stmt),
    dot_is s body ->
    ∃ s', create_edges ext (VList (user_obj <$> users)) s = (inr tt, s')
          ∧ dot_is s' (body ++ edges_of users) ∧ heap s' = heap s ∧ trace s' = trace s.
Proof.
  unfold create_edges. cbn [for_in].
  induction users as [|[[id name] friends] users IH]; intros s body H.
  - exists s. rewrite app_nil_r. done.
  - destruct (create_edges_friends id name friends friends
                (snd (assign "user" (user_obj (id, name, friends)) s)) body)
      as (s2 & E2 & D2 & H2 & T2).
    { apply dot_is_assign; done. }
    destruct (IH s2 _ D2) as (s3 & E3 & D3 & H3 & T3).
    exists s3. split; [|split; [|split]].
    + rewrite fmap_cons, for_each_cons.
      erewrite run_bind by reflexivity.
      erewrite run_bind; [exact E3|].
      etransitivity; [|exact E2]. reflexivity.
    + unfold edges_of. rewrite bind_cons. fold (edges_of users).
      rewrite app_assoc. exact D3.
    + rewrite H3, H2. reflexivity.
    + rewrite T3, T2. reflexivity.
Qed.

(** The whole cell, on a list of users. *)
Lemma cell_graph_run (users : list (Z * string * list Z))
    (g : gmap string value) (h : gmap nat (list value)) :
  llm ext request_graph = inr (VList (user_obj <$> users)) ->
  outcome cell_graph ext g h = inr tt
  ∧ events cell_graph ext g h
    = [Call request_graph; Display (VDigraph (nodes_of users ++ edges_of users))].
Proof.
  intros Hllm. unfold outcome, events, cell_graph.
  set (s1 := {| globals := <["resp" := VList (user_obj <$> users)]>
                             (<["dot" := VDigraph []]> g);
                heap := h; trace := [Call request_graph] |}).
  assert (D1 : dot_is s1 []).
  { unfold dot_is, s1. simpl. rewrite lookup_insert_ne by done. apply lookup_insert_eq. }
  destruct (create_nodes_each users s1 [] D1) as (s2 & E2 & D2 & H2 & T2).
  destruct (create_edges_each users s2 _ D2) as (s3 & E3 & D3 & H3 & T3).
  assert (E : (assign "dot" (VDigraph []) ;;;
               resp <- create ext request_graph ;;
               assign "resp" resp ;;;
               create_nodes ext resp ;;;
               create_edges ext resp ;;;
               dot <- load "dot" ;;
               display dot) (start g h)
              = display (VDigraph (nodes_of users ++ edges_of users)) s3).
  { erewrite run_bind by reflexivity.
    erewrite run_bind; [|unfold create, bind, emit; rewrite Hllm; reflexivity].
    erewrite run_bind by reflexivity.
    erewrite run_bind by exact E2.
    erewrite run_bind by exact E3.
    erewrite run_bind; [reflexivity|].
    unfold load. rewrite D3. reflexivity. }
  rewrite E. simpl. rewrite T3, T2. split; reflexivity.
Qed.

End Graph.

Section Edges.
Implicit Types users : list (Z * string * list Z).

Lemma edge_in_edges_from (id : Z) (friends : list Z) (t h : string) :
  Edge t h ∈ edges_from id friends
  ↔ ∃ f, f ∈ friends ∧ f > id ∧ t = pretty id ∧ h = pretty f.
Proof.
  unfold edges_from. rewrite list_elem_of_fmap. split.
  - intros (f & E & Hf). apply list_elem_of_filter in Hf as [Hgt Hin].
    inversion E; subst. eauto.
  - intros (f & Hin & Hgt & -> & ->). exists f. split; [reflexivity|].
    apply list_elem_of_filter. done.
Qed.

Lemma edge_in_edges_of users (t h : string) :
  Edge t h ∈ edges_of users
  ↔ ∃ u f, u ∈ users ∧ f ∈ user_friends u ∧ f > user_id u
           ∧ t = pretty (user_id u) ∧ h = pretty f.
Proof.
  unfold edges_of. rewrite list_elem_of_bind. split.
  - intros (u & He & Hu). apply edge_in_edges_from in He as (f & ? & ? & ? & ?). eauto 10.
  - intros (u & f & Hu & Hf & Hgt & -> & ->). exists u. split; [|done].
    apply edge_in_edges_from. eauto.
Qed.

Lemma edge_not_in_nodes_of users (t h : string) : Edge t h ∉ nodes_of users.
Proof.
  unfold nodes_of. intros H. apply list_elem_of_fmap in H as (u & E & _). discriminate.
Qed.

Lemma edge_in_body users (t h : string) :
  Edge t h ∈ nodes_of users ++ edges_of users ↔ Edge t h ∈ edges_of users.
Proof.
  rewrite elem_of_app. split; [|by right].
  intros [H|H]; [|done]. by apply edge_not_in_nodes_of in H.
Qed.

(** Every edge runs from a smaller id to a greater one. *)
Lemma edges_go_up users (t h : string) :
  Edge t h ∈ edges_of users → ∃ x y, t = pretty x ∧ h = pretty y ∧ x < y.
Proof.
  intros H. apply edge_in_edges_of in H as (u & f & _ & _ & Hgt & -> & ->).
  exists (user_id u), f. repeat split. lia.
Qed.

Lemma NoDup_edges_from (id : Z) (friends : list Z) :
  NoDup friends → NoDup (edges_from id friends).
Proof.
  intros H. unfold edges_from. apply NoDup_fmap_2_strong.
  - intros x y _ _ E. inversion E as [E']. by apply (inj pretty) in E'.
  - by apply NoDup_filter.
Qed.

Lemma same_id_same_user users (u v : Z * string * list Z) :
  NoDup (user_id <$> users) → u ∈ users → v ∈ users → user_id u = user_id v → u = v.
Proof.
  induction users as [|w users IH]; intros Hnd Hu Hv E.
  - by apply elem_of_nil in Hu.
  - rewrite fmap_cons in Hnd. apply NoDup_cons in Hnd as [Hw Hnd].
    apply elem_of_cons in Hu as [->|Hu]; apply elem_of_cons in Hv as [->|Hv].
    + reflexivity.
    + exfalso. apply Hw. rewrite E. by apply list_elem_of_fmap_2.
    + exfalso. apply Hw. rewrite <- E. by apply list_elem_of_fmap_2.
    + by apply IH.
Qed.

Lemma NoDup_edges_of users :
  NoDup (user_id <$> users) → Forall NoDup (user_friends <$> users) →
  NoDup (edges_of users).
Proof.
  intros Hids Hfr. unfold edges_of. apply NoDup_bind.
  - intros u v st Hu Hv Hst1 Hst2.
    apply (same_id_same_user users); [done..|].
    unfold edges_from in Hst1, Hst2.
    apply list_elem_of_fmap in Hst1 as (f1 & -> & _).
    apply list_elem_of_fmap in Hst2 as (f2 & E & _).
    inversion E as [[E1 E2]]. by apply (inj pretty) in E1.
  - intros u Hu. apply NoDup_edges_from.
    rewrite Forall_fmap, Forall_forall in Hfr. by apply Hfr.
  - by apply NoDup_fmap_1 in Hids.
Qed.

Lemma filter_none {A} (P : A → Prop) `{∀ x, Decision (P x)} (l : list A) :
  (∀ x, x ∈ l → ¬ P x) → filter P l = [].
Proof.
  induction l as [|x l IH]; intros Hno; [reflexivity|].
  rewrite filter_cons_False by (apply Hno; left).
  apply IH. intros y Hy. apply Hno. by right.
Qed.

Lemma filter_length_le_1 {A} (P : A → Prop) `{∀ x, Decision (P x)} (l : list A) :
  NoDup l → (∀ a b, a ∈ l → b ∈ l → P a → P b → a = b) →
  (List.length (filter P l) ≤ 1)%nat.
Proof.
  induction l as [|x l IH]; intros Hnd Hone; [simpl; lia|].
  apply NoDup_cons in Hnd as [Hx Hnd].
  destruct (decide (P x)) as [HP|HP].
  - rewrite filter_cons_True by done.
    assert (E : filter P l = []).
    { apply filter_none. intros y Hy HPy. apply Hx.
      rewrite (Hone x y); [done|left|by right|done..]. }
    rewrite E. simpl. lia.
  - rewrite filter_cons_False by done. apply IH; [done|].
    intros a b Ha Hb. apply Hone; by right.
Qed.

Lemma edges_between_le_1 users (x y : Z) :
  NoDup (user_id <$> users) → Forall NoDup (user_friends <$> users) →
  (edges_between x y (nodes_of users ++ edges_of users) ≤ 1)%nat.
Proof.
  intros Hids Hfr. unfold edges_between. rewrite filter_app.
  assert (E : filter (λ st, st = Edge (pretty x) (pretty y) ∨ st = Edge (pretty y) (pretty x))
                (nodes_of users) = []).
  { apply filter_none. intros st Hst [->| ->];
      by apply edge_not_in_nodes_of in Hst. }
  rewrite E. simpl. apply filter_length_le_1; [by apply NoDup_edges_of|].
  intros a b Ha Hb [->| ->] [->| ->]; try reflexivity; exfalso.
  - apply edges_go_up in Ha as (x1 & y1 & Ex1 & Ey1 & H1).
    apply edges_go_up in Hb as (x2 & y2 & Ex2 & Ey2 & H2).
    apply (inj pretty) in Ex1, Ey1, Ex2, Ey2. lia.
  - apply edges_go_up in Ha as (x1 & y1 & Ex1 & Ey1 & H1).
    apply edges_go_up in Hb as (x2 & y2 & Ex2 & Ey2 & H2).
    apply (inj pretty) in Ex1, Ey1, Ex2, Ey2. lia.
Qed.

End Edges.

(** C4, as the code has it: when the service answers the graph cell with a
    list of users, the cell ends normally and displays the graph whose body
    is one node per user followed, user by user and friend by friend, by one
    edge from the user to each friend whose id is greater.  So for a user u
    and a friend f of u there is an edge from u.id to f exactly when
    f > u.id; no edge joins a node to itself and no two nodes are joined in
    both directions; and when no two users have the same id and no friends
    list names an id twice, at most one edge joins any two ids. *)
Theorem graph_edges_go_to_greater_ids (ext : external)
    (users : list (Z * string * list Z))
    (g : gmap string value) (h : gmap nat (list value))
    (Hllm : llm ext Tips.Relationships.request_graph = inr (VList (user_obj <$> users))) :
  let body := nodes_of users ++ edges_of users in
  outcome Tips.Relationships.cell_graph ext g h = inr tt
  ∧ events Tips.Relationships.cell_graph ext g h
    = [Call Tips.Relationships.request_graph; Display (VDigraph body)]
  ∧ (∀ u f, u ∈ users → f ∈ user_friends u →
       (Edge (pretty (user_id u)) (pretty f) ∈ body ↔ f > user_id u))
  ∧ (∀ t h', Edge t h' ∈ body → t ≠ h' ∧ Edge h' t ∉ body)
  ∧ (NoDup (user_id <$> users) → Forall NoDup (user_friends <$> users) →
     ∀ x y, (edges_between x y body ≤ 1)%nat).
Proof.
  intros body. destruct (cell_graph_run ext users g h Hllm) as [Ho He].
  split; [exact Ho|]. split; [exact He|]. split; [|split].
  - intros u f Hu Hf. unfold body. rewrite edge_in_body, edge_in_edges_of. split.
    + intros (v & f' & _ & _ & Hgt & E1 & E2).
      apply (inj pretty) in E1, E2. lia.
    + intros Hgt. exists u, f. done.
  - intros t h' H. unfold body in *. rewrite edge_in_body in H.
    destruct (edges_go_up _ _ _ H) as (x & y & -> & -> & Hlt). split.
    + intros E. apply (inj pretty) in E. lia.
    + rewrite edge_in_body. intros H'.
      destruct (edges_go_up _ _ _ H') as (x' & y' & E1 & E2 & Hlt').
      apply (inj pretty) in E1, E2. lia.
  - intros Hids Hfr x y. by apply edges_between_le_1.
Qed.

Lemma graph_edges_go_to_greater_ids_witness :
  llm (ext_of (VList (user_obj <$> five_kids))) Tips.Relationships.request_graph
  = inr (VList (user_obj <$> five_kids))
  ∧ events Tips.Relationships.cell_graph (ext_of (VList (user_obj <$> five_kids))) ∅ ∅
    = [Call Tips.Relationships.request_graph;
       Display (VDigraph (nodes_of five_kids ++ edges_of five_kids))].
Proof.
  split; [reflexivity|].
  exact (proj1 (proj2 (graph_edges_go_to_greater_ids
                         (ext_of (VList (user_obj <$> five_kids))) five_kids ∅ ∅ eq_refl))).
Defined.

(** C4, as stated, fails: a friends list that names an id twice gives two
    edges between the same two ids. *)
Lemma duplicate_friend_draws_two_edges :
  events Tips.Relationships.cell_graph
    (ext_of (VList [Tips.Relationships.character_obj 1 "Harry Potter" [2; 2]])) ∅ ∅
  = [Call Tips.Relationships.request_graph;
     Display (VDigraph [Node "1" "Harry Potter"; Edge "1" "2"; Edge "1" "2"])]
  ∧ ¬ (edges_between 1 2 [Node "1" "Harry Potter"; Edge "1" "2"; Edge "1" "2"] ≤ 1)%nat.
Proof.
  split; [vm_compute; reflexivity|].
  assert (E : edges_between 1 2 [Node "1" "Harry Potter"; Edge "1" "2"; Edge "1" "2"] = 2%nat)
    by (vm_compute; reflexivity).
  rewrite E. lia.
Qed.

(** ** The patterns shown *)

(** C6: the declarations and requests of the notebooks show the four
    patterns: a classification (the house of a [Character], an Enum in one
    cell and a Literal in the next, as response model), a nested object (a
    [Character] holding a list of [Property]), a list generation
    ([Iterable[Character]] as response model) and a query decomposition (a
    [QueryPlan] holding a list of [Question], each with an int id and a list
    of int subquestions; the plan shown by the notebook is an instance and
    its subquestions are ids of its questions). *)
Theorem notebooks_show_the_patterns (s : state) :
  field_annotation Tips.Classification.Character "house" = Some Tips.Classification.House
  ∧ (∃ members, Tips.Classification.House = AEnum "House" members)
  ∧ response_model Tips.Classification.request = Tips.Classification.Character
  ∧ field_annotation Tips.Literals.Character "house"
    = Some (ALiteral ["Gryffindor"; "Hufflepuff"; "Ravenclaw"; "Slytherin"])
  ∧ response_model Tips.Literals.request = Tips.Literals.Character
  ∧ field_annotation Tips.Properties.Character "properties"
    = Some (AList Tips.Properties.Property)
  ∧ (∃ fields, Tips.Properties.Property = AModel "Property" fields)
  ∧ response_model Tips.Properties.request = Tips.Properties.Character
  ∧ response_model Tips.MultipleEntities.request
    = AIterable Tips.MultipleEntities.Character
  ∧ (∃ fields, Tips.MultipleEntities.Character = AModel "Character" fields)
  ∧ field_annotation Rag.Decomposition.QueryPlan "plan"
    = Some (AList Rag.Decomposition.Question)
  ∧ field_annotation Rag.Decomposition.Question "id" = Some AInt
  ∧ field_annotation Rag.Decomposition.Question "subquestions" = Some (AList AInt)
  ∧ response_model Rag.Decomposition.request = Rag.Decomposition.QueryPlan
  ∧ Validation.validate Rag.Decomposition.QueryPlan
      (query_plan_obj
         "What is the difference between the population of jason's home country and canada?"
         shown_plan) s
    = (inr (query_plan_obj
              "What is the difference between the population of jason's home country and canada?"
              shown_plan), s)
  ∧ linked shown_plan = true.
Proof.
  repeat split; try reflexivity; eexists; reflexivity.
Qed.

(** ** The cells, one by one *)

Section Runs.

Lemma for_each_emit (f : value → event) (x : string) (l : list value) :
  ∀ s, ∃ s', for_each x l (fun item => emit (f item)) s = (inr tt, s')
             ∧ trace s' = trace s ++ (f <$> l) ∧ heap s' = heap s
             ∧ (∀ k, k ≠ x → globals s' !! k = globals s !! k).
Proof.
  induction l as [|item l IH]; intros s.
  - exists s. rewrite app_nil_r. done.
  - destruct (IH (snd (emit (f item) (snd (assign x item s))))) as (s' & E & T & H & G).
    exists s'. split; [|split; [|split]].
    + rewrite for_each_cons.
      erewrite run_bind by reflexivity. erewrite run_bind by reflexivity. exact E.
    + rewrite T. simpl. rewrite <- app_assoc. reflexivity.
    + rewrite H. reflexivity.
    + intros k Hk. rewrite G by done. simpl. by rewrite lookup_insert_ne.
Qed.

Lemma for_in_emit (f : value → event) (x : string) (v : value) :
  ∀ s, ∃ s', for_in x v (fun item => emit (f item)) s = (loop_end (heap s) v, s')
             ∧ trace s' = trace s ++ (f <$> items_of (heap s) v) ∧ heap s' = heap s
             ∧ (∀ k, k ≠ x → globals s' !! k = globals s !! k).
Proof.
  intros s.
  destruct v as [| | | |l|a|l failure| | |];
    try (exists s; simpl; rewrite app_nil_r; done).
  - apply for_each_emit.
  - simpl. destruct (heap s !! a) as [l|] eqn:E.
    + apply for_each_emit.
    + exists s. simpl. rewrite app_nil_r. done.
  - destruct (for_each_emit f x l s) as (s' & E & T & H & G).
    exists s'. split; [|done]. simpl.
    erewrite run_bind by exact E. by destruct failure.
Qed.

(** The three shapes of a cell that shows what it gets. *)

Lemma result_cell (req : request) (var : string) :
  run_is (fun ext => resp <- create ext req ;; assign var resp ;;;
                     result (model_dump ext resp))
         (fun _ => req) var (fun ext _ v => [Result (model_dump ext v)])
         (fun _ _ => inr tt).
Proof.
  intros ext g h. unfold events, outcome, final, create, bind, emit. simpl.
  destruct (llm ext req) as [e|v]; simpl; repeat split; intros; simplify_eq;
    try reflexivity; apply lookup_insert_eq.
Qed.

Lemma json_cell (req : external → request) (var : string) :
  run_is (fun ext => resp <- create ext (req ext) ;; assign var resp ;;;
                     print (VStr (model_dump_json ext 4 resp)))
         req var (fun ext _ v => [Print (VStr (model_dump_json ext 4 v))])
         (fun _ _ => inr tt).
Proof.
  intros ext g h. unfold events, outcome, final, create, bind, emit. simpl.
  destruct (llm ext (req ext)) as [e|v]; simpl; repeat split; intros; simplify_eq;
    try reflexivity; apply lookup_insert_eq.
Qed.

Lemma loop_cell (pre : M unit) (req : request) (var x : string)
    (f : external → value → event) :
  (∀ s, ∃ g', pre s = (inr tt, {| globals := g'; heap := heap s; trace := trace s |})) →
  var ≠ x →
  run_is (fun ext => pre ;;; resp <- create ext req ;; assign var resp ;;;
                     for_in x resp (fun item => emit (f ext item)))
         (fun _ => req) var (fun ext h v => f ext <$> items_of h v) loop_end.
Proof.
  intros Hpre Hx ext g h. unfold events, outcome, final.
  destruct (Hpre (start g h)) as (g' & Epre). simpl in Epre.
  set (r := (pre ;;; resp <- create ext req ;; assign var resp ;;;
             for_in x resp (fun item => emit (f ext item))) (start g h)).
  destruct (llm ext req) as [e|v] eqn:Hllm.
  - assert (Er : r = (inl e, {| globals := g'; heap := h; trace := [Call req] |})).
    { unfold r. erewrite run_bind by exact Epre.
      unfold create, bind, emit. simpl. rewrite Hllm. reflexivity. }
    rewrite Er. repeat split; intros; simplify_eq; reflexivity.
  - set (s1 := {| globals := <[var := v]> g'; heap := h; trace := [Call req] |}).
    destruct (for_in_emit (f ext) x v s1) as (s' & E & T & H & G).
    assert (Er : r = (loop_end h v, s')).
    { unfold r. erewrite run_bind by exact Epre.
      erewrite run_bind; [|unfold create, bind, emit; simpl; rewrite Hllm; reflexivity].
      erewrite run_bind by reflexivity. exact E. }
    rewrite Er. simpl. repeat split; intros; simplify_eq.
    + exact T.
    + rewrite G by done. apply lookup_insert_eq.
Qed.

End Runs.

Section Quiet.

Lemma getattr_pure (obj : value) (name : string) :
  ∃ r, ∀ s, getattr obj name s = (r, s).
Proof.
  destruct obj; simpl; try (eexists; intros; reflexivity).
  - repeat case_decide; eexists; intros; reflexivity.
  - destruct (assoc name attrs); eexists; intros; reflexivity.
Qed.

Lemma call_title_pure (v : value) : ∃ r, ∀ s, call_title v s = (r, s).
Proof. destruct v; simpl; eexists; intros; reflexivity. Qed.

Lemma gt_pure (a b : value) : ∃ r, ∀ s, gt a b s = (r, s).
Proof. destruct a, b; simpl; eexists; intros; reflexivity. Qed.

Lemma quiet_pure {A} (m : M A) : (∃ r, ∀ s, m s = (r, s)) → quiet m.
Proof. intros [r H] s. rewrite H. done. Qed.

Lemma quiet_ret {A} (a : A) : quiet (ret a).
Proof. intros s. done. Qed.

Lemma quiet_raise {A} (e : exn) : quiet (@raise A e).
Proof. intros s. done. Qed.

Lemma quiet_bind {A B} (m : M A) (k : A → M B) :
  quiet m → (∀ a, quiet (k a)) → quiet (x <- m ;; k x).
Proof.
  intros Hm Hk s. unfold bind. specialize (Hm s).
  destruct (m s) as [[e|a] s1]; simpl in *; [exact Hm|].
  destruct (Hk a s1) as (T & H & G). destruct Hm as (T1 & H1 & G1).
  rewrite T, H, G. done.
Qed.

Lemma quiet_assign (x : string) (v : value) : x ≠ "resp" → quiet (assign x v).
Proof. intros Hx s. simpl. rewrite lookup_insert_ne by done. done. Qed.

Lemma quiet_load (x : string) : quiet (load x).
Proof. intros s. unfold load. destruct (globals s !! x); done. Qed.

Lemma quiet_for_each (x : string) (l : list value) (body : value → M unit) :
  x ≠ "resp" → (∀ item, quiet (body item)) → quiet (for_each x l body).
Proof.
  intros Hx Hbody. induction l as [|item l IH]; [apply quiet_ret|].
  rewrite for_each_cons.
  apply quiet_bind; [by apply quiet_assign|intros _].
  apply quiet_bind; [apply Hbody|intros _; exact IH].
Qed.

Lemma quiet_for_in (x : string) (v : value) (body : value → M unit) :
  x ≠ "resp" → (∀ item, quiet (body item)) → quiet (for_in x v body).
Proof.
  intros Hx Hbody. destruct v; simpl; try apply quiet_raise.
  - by apply quiet_for_each.
  - intros s. destruct (heap s !! a); [by apply quiet_for_each|done].
  - apply quiet_bind; [by apply quiet_for_each|intros _].
    destruct failure; [apply quiet_raise|apply quiet_ret].
Qed.

Lemma quiet_dot_node (name label : value) : quiet (dot_node name label).
Proof.
  apply quiet_bind; [apply quiet_load|intros d].
  destruct d, name, label; try apply quiet_raise. by apply quiet_assign.
Qed.

Lemma quiet_dot_edge (tail head : value) : quiet (dot_edge tail head).
Proof.
  apply quiet_bind; [apply quiet_load|intros d].
  destruct d, tail, head; try apply quiet_raise. by apply quiet_assign.
Qed.

Lemma quiet_create_nodes (ext : external) (resp : value) :
  quiet (Tips.Relationships.create_nodes ext resp).
Proof.
  apply quiet_for_in; [done|intros user].
  apply quiet_bind; [apply quiet_pure, getattr_pure|intros id].
  apply quiet_bind; [apply quiet_pure, getattr_pure|intros name].
  apply quiet_dot_node.
Qed.

Lemma quiet_create_edges (ext : external) (resp : value) :
  quiet (Tips.Relationships.create_edges ext resp).
Proof.
  apply quiet_for_in; [done|intros user].
  apply quiet_bind; [apply quiet_pure, getattr_pure|intros friends].
  apply quiet_for_in; [done|intros friend_id].
  apply quiet_bind; [apply quiet_pure, getattr_pure|intros id].
  apply quiet_bind; [apply quiet_pure, gt_pure|intros greater].
  destruct greater; [|apply quiet_ret].
  apply quiet_bind; [apply quiet_pure, getattr_pure|intros id'].
  apply quiet_dot_edge.
Qed.

(** What the graph cell does with an answer: nothing to see, or the graph. *)
Lemma graph_rest (ext : external) (v : value) (s1 : state) :
  ∃ r s' outs,
    (Tips.Relationships.create_nodes ext v ;;;
     Tips.Relationships.create_edges ext v ;;;
     dot <- load "dot" ;; display dot) s1 = (r, s')
    ∧ trace s' = trace s1 ++ outs ∧ existsb is_call outs = false
    ∧ globals s' !! "resp" = globals s1 !! "resp".
Proof.
  destruct (quiet_create_nodes ext v s1) as (T2 & _ & G2).
  destruct (Tips.Relationships.create_nodes ext v s1) as [[e|[]] s2] eqn:E2;
    simpl in T2, G2.
  { exists (inl e), s2, []. erewrite run_bind_raise by exact E2.
    rewrite app_nil_r. done. }
  erewrite run_bind by exact E2.
  destruct (quiet_create_edges ext v s2) as (T3 & _ & G3).
  destruct (Tips.Relationships.create_edges ext v s2) as [[e|[]] s3] eqn:E3;
    simpl in T3, G3.
  { exists (inl e), s3, []. erewrite run_bind_raise by exact E3.
    rewrite app_nil_r, T3, G3. done. }
  erewrite run_bind by exact E3.
  unfold bind, load. destruct (globals s3 !! "dot") as [d|].
  - eexists _, _, [Display d]. split; [reflexivity|]. simpl. rewrite T3, T2, G3, G2. done.
  - eexists _, _, []. split; [reflexivity|]. rewrite app_nil_r, T3, G3. done.
Qed.

(** The graph cell on any answer: one call, then nothing or the graph. *)
Lemma cell_graph_one_call :
  one_call Tips.Relationships.cell_graph (fun _ => Tips.Relationships.request_graph) "resp".
Proof.
  intros ext g h. unfold events, outcome, final.
  set (req := Tips.Relationships.request_graph).
  set (r := Tips.Relationships.cell_graph ext (start g h)).
  destruct (llm ext req) as [e|v] eqn:Hllm.
  - assert (Er : r = (inl e, {| globals := <["dot" := VDigraph []]> g; heap := h;
                                 trace := [Call req] |})).
    { unfold r, Tips.Relationships.cell_graph. erewrite run_bind by reflexivity.
      unfold create, bind, emit. simpl. fold req. rewrite Hllm. reflexivity. }
    rewrite Er. exists []. repeat split; intros; simplify_eq; reflexivity.
  - set (s1 := {| globals := <["resp" := v]> (<["dot" := VDigraph []]> g); heap := h;
                  trace := [Call req] |}).
    destruct (graph_rest ext v s1) as (res & s' & outs & E & T & C & G).
    assert (Er : r = (res, s')).
    { unfold r, Tips.Relationships.cell_graph. erewrite run_bind by reflexivity.
      erewrite run_bind;
        [|unfold create, bind, emit; simpl; fold req; rewrite Hllm; reflexivity].
      erewrite run_bind by reflexivity. exact E. }
    rewrite Er. exists outs. cbn [fst snd]. rewrite T, G.
    repeat split; intros; simplify_eq; try done. apply lookup_insert_eq.
Qed.

(** [say_hello] shows nothing, or one line. *)
Lemma say_hello_trace (ext : external) (self : value) (s : state) :
  ∃ r s' outs, Tips.Classification.say_hello ext self s = (r, s')
               ∧ trace s' = trace s ++ outs ∧ existsb is_call outs = false.
Proof.
  unfold Tips.Classification.say_hello.
  destruct (getattr_pure self "name") as [[e|name] H1];
    [exists (inl e), s, []; erewrite run_bind_raise by apply H1; by rewrite app_nil_r|].
  erewrite run_bind by apply H1.
  destruct (getattr_pure self "age") as [[e|age] H2];
    [exists (inl e), s, []; erewrite run_bind_raise by apply H2; by rewrite app_nil_r|].
  erewrite run_bind by apply H2.
  destruct (getattr_pure self "house") as [[e|house] H3];
    [exists (inl e), s, []; erewrite run_bind_raise by apply H3; by rewrite app_nil_r|].
  erewrite run_bind by apply H3.
  destruct (getattr_pure house "value") as [[e|house_value] H4];
    [exists (inl e), s, []; erewrite run_bind_raise by apply H4; by rewrite app_nil_r|].
  erewrite run_bind by apply H4.
  destruct (call_title_pure house_value) as [[e|titled] H5];
    [exists (inl e), s, []; erewrite run_bind_raise by apply H5; by rewrite app_nil_r|].
  erewrite run_bind by apply H5.
  eexists _, _, [_]. split; [reflexivity|]. done.
Qed.

Lemma cell_say_hello_no_call : no_call Tips.Classification.cell_say_hello.
Proof.
  intros ext g h. unfold events, Tips.Classification.cell_say_hello, bind, load.
  destruct (globals (start g h) !! "resp") as [resp|]; [|reflexivity].
  destruct (say_hello_trace ext resp (start g h)) as (r & s' & outs & E & T & C).
  rewrite E. simpl. rewrite T. exact C.
Qed.

Lemma declarations_no_call : no_call Rag.declarations.
Proof. intros ext g h. reflexivity. Qed.

Lemma run_is_one_call c req var out fin :
  run_is c req var out fin → (∀ ext h v, existsb is_call (out ext h v) = false) →
  one_call c req var.
Proof.
  intros Hrun Hout ext g h. destruct (Hrun ext g h) as (E & Ho & Hret).
  eexists. split; [exact E|]. rewrite Ho.
  destruct (llm ext (req ext)) as [e|v]; repeat split; intros; simplify_eq; auto.
Qed.

End Quiet.

Section Inventory.

Lemma no_pre (s : state) :
  ∃ g', ret tt s = (inr tt, {| globals := g'; heap := heap s; trace := trace s |}).
Proof. exists (globals s). by destruct s. Qed.

Lemma assign_pre (x : string) (v : value) (s : state) :
  ∃ g', assign x v s = (inr tt, {| globals := g'; heap := heap s; trace := trace s |}).
Proof. eexists. reflexivity. Qed.

Lemma tips_classification_run :
  run_is Tips.Classification.cell (fun _ => Tips.Classification.request) "resp"
    (fun ext _ v => [Result (model_dump ext v)]) (fun _ _ => inr tt).
Proof. exact (result_cell _ _). Qed.

Lemma tips_literals_run :
  run_is Tips.Literals.cell (fun _ => Tips.Literals.request) "resp"
    (fun ext _ v => [Result (model_dump ext v)]) (fun _ _ => inr tt).
Proof. exact (result_cell _ _). Qed.

Lemma tips_properties_run :
  run_is Tips.Properties.cell (fun _ => Tips.Properties.request) "resp"
    (fun ext _ v => [Result (model_dump ext v)]) (fun _ _ => inr tt).
Proof. exact (result_cell _ _). Qed.

Lemma tips_limited_lists_run :
  run_is Tips.LimitedLists.cell (fun _ => Tips.LimitedLists.request) "resp"
    (fun ext _ v => [Result (model_dump ext v)]) (fun _ _ => inr tt).
Proof. exact (result_cell _ _). Qed.

Lemma tips_multiple_entities_run :
  run_is Tips.MultipleEntities.cell (fun _ => Tips.MultipleEntities.request) "resp"
    (fun _ h v => Print <$> items_of h v) loop_end.
Proof.
  exact (loop_cell (ret tt) _ "resp" "character" (fun _ => Print) no_pre ltac:(done)).
Qed.

Lemma tips_multiple_entities_stream_run :
  run_is Tips.MultipleEntities.cell_stream (fun _ => Tips.MultipleEntities.request_stream)
    "resp" (fun _ h v => Print <$> items_of h v) loop_end.
Proof.
  exact (loop_cell (ret tt) _ "resp" "character" (fun _ => Print) no_pre ltac:(done)).
Qed.

Lemma tips_relationships_run :
  run_is Tips.Relationships.cell (fun _ => Tips.Relationships.request) "resp"
    (fun _ h v => Print <$> items_of h v) loop_end.
Proof.
  exact (loop_cell (ret tt) _ "resp" "character" (fun _ => Print) no_pre ltac:(done)).
Qed.

Lemma rag_extractions_run :
  run_is Rag.Extractions.cell (fun _ => Rag.Extractions.request) "extractions"
    (fun ext h v => (fun item => PPrint (model_dump ext item)) <$> items_of h v) loop_end.
Proof.
  exact (loop_cell (assign "text_chunk" (VStr Rag.Extractions.text_chunk)) _
           "extractions" "extraction" (fun ext item => PPrint (model_dump ext item))
           (assign_pre _ _) ltac:(done)).
Qed.

Lemma rag_temporal_run :
  run_is Rag.Temporal.cell Rag.Temporal.request "query"
    (fun ext _ v => [Print (VStr (model_dump_json ext 4 v))]) (fun _ _ => inr tt).
Proof. exact (json_cell _ _). Qed.

Lemma rag_chain_of_thought_run :
  run_is Rag.ChainOfThought.cell Rag.ChainOfThought.request "query"
    (fun ext _ v => [Print (VStr (model_dump_json ext 4 v))]) (fun _ _ => inr tt).
Proof. exact (json_cell _ _). Qed.

Lemma rag_assistant_run :
  run_is Rag.Assistant.cell Rag.Assistant.request "retrival"
    (fun ext _ v => [Print (VStr (model_dump_json ext 4 v))]) (fun _ _ => inr tt).
Proof. exact (json_cell _ _). Qed.

Lemma rag_assistant_tasks_run :
  run_is Rag.Assistant.cell_tasks Rag.Assistant.request_tasks "retrival"
    (fun ext _ v => [Print (VStr (model_dump_json ext 4 v))]) (fun _ _ => inr tt).
Proof. exact (json_cell _ _). Qed.

Lemma rag_decomposition_run :
  run_is Rag.Decomposition.cell (fun _ => Rag.Decomposition.request) "retrival"
    (fun ext _ v => [Print (VStr (model_dump_json ext 4 v))]) (fun _ _ => inr tt).
Proof. exact (json_cell _ _). Qed.

End Inventory.

(** ** All the cells *)

(** One goal per element of a list written out. *)
Ltac each_element H :=
  repeat (apply elem_of_cons in H as [->|H]); [..|by apply elem_of_nil in H].

Section AllCells.

Lemma not_a_call (outs : list event) (req : request) :
  existsb is_call outs = false → Call req ∉ outs.
Proof.
  intros H Hin. apply list_elem_of_In in Hin.
  assert (existsb is_call outs = true) by (apply existsb_exists; by exists (Call req)).
  congruence.
Qed.

Lemma print_is_no_call (l : list value) : existsb is_call (Print <$> l) = false.
Proof. by induction l. Qed.

Lemma pprint_is_no_call (f : value → value) (l : list value) :
  existsb is_call ((fun item => PPrint (f item)) <$> l) = false.
Proof. by induction l. Qed.

Lemma call_of_one_call c rq var ext g h req :
  one_call c rq var → Call req ∈ events c ext g h → req = rq ext.
Proof.
  intros H Hin. destruct (H ext g h) as (outs & E & C & _). rewrite E in Hin.
  apply elem_of_cons in Hin as [Heq|Hin]; [by inversion Heq|].
  by apply not_a_call in Hin.
Qed.

Lemma call_of_no_call c ext g h req :
  no_call c → Call req ∈ events c ext g h → False.
Proof. intros H Hin. by apply not_a_call in Hin. Qed.

Lemma one_call_propagates c rq var ext g h req :
  one_call c rq var → Call req ∈ events c ext g h →
  match llm ext req with
  | inl e => outcome c ext g h = inl e ∧ events c ext g h = [Call req]
  | inr v => ∃ name, globals (final c ext g h) !! name = Some v
  end.
Proof.
  intros H Hin. rewrite (call_of_one_call _ _ _ _ _ _ _ H Hin).
  destruct (H ext g h) as (outs & E & C & Hraise & Hret).
  destruct (llm ext (rq ext)) as [e|v].
  - destruct (Hraise e eq_refl) as [Ho ->]. done.
  - exists var. by apply Hret.
Qed.

Lemma one_call_first c rq var ext g h i req :
  one_call c rq var → events c ext g h !! i = Some (Call req) → i = 0%nat.
Proof.
  intros H Hi. destruct (H ext g h) as (outs & E & C & _). rewrite E in Hi.
  destruct i as [|i]; [reflexivity|]. simpl in Hi.
  apply list_elem_of_lookup_2 in Hi. by apply not_a_call in Hi.
Qed.

Lemma no_call_none c ext g h i req :
  no_call c → events c ext g h !! i = Some (Call req) → i = 0%nat.
Proof.
  intros H Hi. apply list_elem_of_lookup_2 in Hi. by apply call_of_no_call in Hi.
Qed.

Lemma loop_stream_failure c rq var out ext g h req items e :
  run_is c rq var out loop_end → (∀ ext h v, existsb is_call (out ext h v) = false) →
  Call req ∈ events c ext g h → llm ext req = inr (VGen items (Some e)) →
  outcome c ext g h = inl e.
Proof.
  intros Hrun Hout Hin Hllm.
  rewrite (call_of_one_call _ _ _ _ _ _ _ (run_is_one_call _ _ _ _ _ Hrun Hout) Hin) in Hllm.
  destruct (Hrun ext g h) as (_ & Ho & _). rewrite Ho, Hllm. reflexivity.
Qed.

Lemma not_streaming c rq var ext g h req :
  one_call c rq var → (∀ ext, stream (rq ext) = false) →
  Call req ∈ events c ext g h → stream req = true → False.
Proof.
  intros H Hs Hin Hreq. rewrite (call_of_one_call _ _ _ _ _ _ _ H Hin), Hs in Hreq.
  discriminate.
Qed.

End AllCells.

(** Every cell makes no call, or one at its start. *)
Lemma cells_call_at_most_once (c : Py.cell) :
  c ∈ all_cells → no_call c ∨ ∃ rq var, one_call c rq var.
Proof.
  intros Hc. unfold all_cells, Tips.cells, Rag.cells in Hc. cbn [app] in Hc.
  each_element Hc;
    first [ left; first [exact cell_say_hello_no_call | exact declarations_no_call]
          | right; eexists _, _; exact cell_graph_one_call
          | right; eexists _, _; eapply run_is_one_call;
            [ solve [auto using tips_classification_run, tips_literals_run, tips_properties_run,
      tips_limited_lists_run, tips_multiple_entities_run, tips_multiple_entities_stream_run,
      tips_relationships_run, rag_extractions_run, rag_temporal_run, rag_chain_of_thought_run,
      rag_assistant_run, rag_assistant_tasks_run, rag_decomposition_run]
            | intros; cbn beta;
              first [reflexivity | apply print_is_no_call | apply pprint_is_no_call] ] ].
Qed.

(** ** Errors *)

Lemma stream_failure_ends_the_cell (c : Py.cell) (ext : external)
    (g : gmap string value) (h : gmap nat (list value)) (req : request)
    (items : list value) (e : exn) :
  c ∈ all_cells → Call req ∈ events c ext g h → stream req = true →
  llm ext req = inr (VGen items (Some e)) → outcome c ext g h = inl e.
Proof.
  intros Hc Hin Hs Hllm. unfold all_cells, Tips.cells, Rag.cells in Hc. cbn [app] in Hc.
  each_element Hc;
    first [ exfalso; eapply call_of_no_call; [|exact Hin];
            first [exact cell_say_hello_no_call | exact declarations_no_call]
          | eapply loop_stream_failure; [| |exact Hin|exact Hllm];
            [ solve [auto using tips_multiple_entities_run, tips_multiple_entities_stream_run,
                       tips_relationships_run, rag_extractions_run]
            | intros; cbn beta; first [apply print_is_no_call | apply pprint_is_no_call] ]
          | exfalso; eapply not_streaming; [| |exact Hin|exact Hs];
            [ exact cell_graph_one_call | intros; reflexivity ]
          | exfalso; eapply not_streaming; [| |exact Hin|exact Hs];
            [ eapply run_is_one_call;
              [ solve [auto using tips_classification_run, tips_literals_run, tips_properties_run,
      tips_limited_lists_run, tips_multiple_entities_run, tips_multiple_entities_stream_run,
      tips_relationships_run, rag_extractions_run, rag_temporal_run, rag_chain_of_thought_run,
      rag_assistant_run, rag_assistant_tasks_run, rag_decomposition_run]
              | intros; cbn beta; reflexivity ]
            | intros; reflexivity ] ].
Qed.

(** C7: no cell handles, retries or replaces a failed call.  Whenever a
    cell has called the service with [req]: if the call raised [e], the
    cell ends with [e], that call is all it did that can be seen (no second
    call, nothing shown); if the call returned [v], [v] is bound to a name
    of the namespace as it is, and when the request streams and the answer
    raises [e] after its items, the cell ends with [e] too. *)
Theorem call_errors_propagate (c : Py.cell) (ext : external)
    (g : gmap string value) (h : gmap nat (list value)) (req : request)
    (Hc : c ∈ all_cells) (Hcall : Call req ∈ events c ext g h) :
  match llm ext req with
  | inl e => outcome c ext g h = inl e ∧ events c ext g h = [Call req]
  | inr v =>
      (∃ name, globals (final c ext g h) !! name = Some v)
      ∧ (∀ items e, stream req = true → v = VGen items (Some e) →
                    outcome c ext g h = inl e)
  end.
Proof.
  destruct (cells_call_at_most_once c Hc) as [Hno|(rq & var & Hone)].
  { exfalso. by eapply call_of_no_call. }
  pose proof (one_call_propagates _ _ _ _ _ _ _ Hone Hcall) as Hp.
  destruct (llm ext req) as [e|v] eqn:Hllm; [exact Hp|].
  split; [exact Hp|]. intros items e Hs ->.
  by eapply stream_failure_ends_the_cell.
Qed.

Lemma call_errors_propagate_witness :
  Tips.Classification.cell ∈ all_cells
  ∧ Call Tips.Classification.request
    ∈ events Tips.Classification.cell (ext_raising "APIConnectionError") ∅ ∅
  ∧ outcome Tips.Classification.cell (ext_raising "APIConnectionError") ∅ ∅
    = inl "APIConnectionError"
  ∧ events Tips.Classification.cell (ext_raising "APIConnectionError") ∅ ∅
    = [Call Tips.Classification.request].
Proof.
  assert (Hc : Tips.Classification.cell ∈ all_cells) by (left).
  assert (Hcall : Call Tips.Classification.request
                  ∈ events Tips.Classification.cell (ext_raising "APIConnectionError") ∅ ∅)
    by (left).
  split; [exact Hc|]. split; [exact Hcall|].
  exact (call_errors_propagate Tips.Classification.cell (ext_raising "APIConnectionError")
           ∅ ∅ Tips.Classification.request Hc Hcall).
Defined.

(** ** One call at a time *)

(** C8: in every cell a call, if there is one, is the first thing the cell
    does that can be seen, so a cell makes at most one; and the cell under
    the sentence on asynchronous dispatch makes one call without streaming
    and goes on only with what the call gave back: when the call raises, the
    cell ends with what was raised and does nothing more; when it returns,
    the answer is bound to [retrival], and an answer that is an instance of
    the response model is printed once, as its JSON dump, after the call. *)
Theorem requests_are_single_blocking_calls (c : Py.cell) (ext : external)
    (g : gmap string value) (h : gmap nat (list value)) (Hc : c ∈ all_cells) :
  (∀ i req, events c ext g h !! i = Some (Call req) → i = 0%nat)
  ∧ stream (Rag.Assistant.request ext) = false
  ∧ match llm ext (Rag.Assistant.request ext) with
    | inl e =>
        events Rag.Assistant.cell ext g h = [Call (Rag.Assistant.request ext)]
        ∧ outcome Rag.Assistant.cell ext g h = inl e
    | inr v =>
        globals (final Rag.Assistant.cell ext g h) !! "retrival" = Some v
        ∧ (instance_of (response_model (Rag.Assistant.request ext)) v = true →
           events Rag.Assistant.cell ext g h
           = [Call (Rag.Assistant.request ext); Print (VStr (model_dump_json ext 4 v))]
           ∧ outcome Rag.Assistant.cell ext g h = inr tt)
    end.
Proof.
  split; [|split; [reflexivity|]].
  - intros i req Hi.
    destruct (cells_call_at_most_once c Hc) as [Hno|(rq & var & Hone)].
    + by eapply no_call_none.
    + by eapply one_call_first.
  - destruct (rag_assistant_run ext g h) as (E & Ho & Hb).
    destruct (llm ext (Rag.Assistant.request ext)) as [e|v]; [done|].
    split; [by apply Hb|]. done.
Qed.

Lemma requests_are_single_blocking_calls_witness :
  Rag.Assistant.cell ∈ all_cells
  ∧ instance_of (response_model (Rag.Assistant.request (ext_answering assistant_answer)))
      assistant_answer = true
  ∧ events Rag.Assistant.cell (ext_answering assistant_answer) ∅ ∅
    = [Call (Rag.Assistant.request (ext_answering assistant_answer));
       Print (VStr assistant_answer_text)]
  ∧ outcome Rag.Assistant.cell (ext_answering assistant_answer) ∅ ∅ = inr tt.
Proof.
  assert (Hc : Rag.Assistant.cell ∈ all_cells).
  { apply list_elem_of_In. unfold all_cells, Tips.cells, Rag.cells. simpl. tauto. }
  split; [exact Hc|]. split; [reflexivity|].
  rewrite <- json_of_the_assistant_answer.
  exact (proj2 (proj2 (proj2 (requests_are_single_blocking_calls
                                Rag.Assistant.cell (ext_answering assistant_answer) ∅ ∅ Hc)))
           eq_refl).
Defined.

(** ** Display *)

Section DisplayOnly.










End DisplayOnly.




(** * More properties of the cells *)

(** ** The friends graph, pair by pair *)

Section Pairs.
Implicit Types users : list (Z * string * list Z).

Lemma filter_length_ge_1 {A} (P : A → Prop) `{∀ x, Decision (P x)} (l : list A) (x : A) :
  x ∈ l → P x → (1 ≤ List.length (filter P l))%nat.
Proof.
  intros Hin HP.
  assert (Hf : x ∈ filter P l) by (by apply list_elem_of_filter).
  destruct (filter P l); [by apply elem_of_nil in Hf|simpl; lia].
Qed.

Lemma edge_of_pair users (u : Z * string * list Z) (f : Z) :
  NoDup (user_id <$> users) → u ∈ users →
  (Edge (pretty (user_id u)) (pretty f) ∈ edges_of users
   ↔ f ∈ user_friends u ∧ f > user_id u).
Proof.
  intros Hids Hu. rewrite edge_in_edges_of. split.
  - intros (u' & f' & Hu' & Hf' & Hgt & E1 & E2).
    apply (inj pretty) in E1, E2. subst f'.
    assert (u' = u) as -> by (by apply (same_id_same_user users)).
    done.
  - intros [Hf Hgt]. exists u, f. done.
Qed.

Lemma edges_between_pair users (u v : Z * string * list Z) :
  NoDup (user_id <$> users) → Forall NoDup (user_friends <$> users) →
  u ∈ users → v ∈ users → user_id u < user_id v →
  edges_between (user_id u) (user_id v) (nodes_of users ++ edges_of users)
  = if decide (user_id v ∈ user_friends u) then 1%nat else 0%nat.
Proof.
  intros Hids Hfr Hu Hv Hlt.
  pose proof (edges_between_le_1 users (user_id u) (user_id v) Hids Hfr) as Hle.
  destruct (decide (user_id v ∈ user_friends u)) as [Hin|Hnot].
  - assert (1 ≤ edges_between (user_id u) (user_id v) (nodes_of users ++ edges_of users))%nat;
      [|lia].
    unfold edges_between.
    apply (filter_length_ge_1 _ _ (Edge (pretty (user_id u)) (pretty (user_id v)))); [|by left].
    apply edge_in_body, edge_of_pair; [done..|]. split; [done|lia].
  - unfold edges_between. rewrite filter_none; [reflexivity|].
    intros st Hst [->| ->]; apply edge_in_body in Hst.
    + apply edge_of_pair in Hst as [Hin _]; done.
    + apply edges_go_up in Hst as (x & y & Ex & Ey & Hxy).
      apply (inj pretty) in Ex, Ey. lia.
Qed.

Lemma edge_tail_is_node users (t h : string) :
  Edge t h ∈ edges_of users → ∃ label, Node t label ∈ nodes_of users.
Proof.
  intros H. apply edge_in_edges_of in H as (u & f & Hu & _ & _ & -> & _).
  exists u.1.2. unfold nodes_of. apply list_elem_of_fmap. by exists u.
Qed.

Lemma nodes_before_edges users (i j : nat) (n l t h : string) :
  (nodes_of users ++ edges_of users) !! i = Some (Node n l) →
  (nodes_of users ++ edges_of users) !! j = Some (Edge t h) →
  (i < j)%nat.
Proof.
  intros Hi Hj.
  destruct (decide (i < List.length (nodes_of users))%nat) as [Hin|Hin].
  - destruct (decide (j < List.length (nodes_of users))%nat) as [Hjn|Hjn]; [|lia].
    rewrite lookup_app_l in Hj by done.
    apply list_elem_of_lookup_2 in Hj. by apply edge_not_in_nodes_of in Hj.
  - rewrite lookup_app_r in Hi by lia.
    apply list_elem_of_lookup_2 in Hi.
    unfold edges_of in Hi. apply list_elem_of_bind in Hi as (u & Hi & _).
    unfold edges_from in Hi. apply list_elem_of_fmap in Hi as (f & E & _). discriminate.
Qed.

End Pairs.

(** X1: when the answer is a list of users with different ids whose
    friends lists name no id twice, the graph cell draws between two users
    u and v with u.id < v.id exactly one edge when u lists v and none when
    it does not; whether v lists u plays no part. *)
Theorem graph_edge_depends_on_smaller_id (ext : external)
    (users : list (Z * string * list Z)) (u v : Z * string * list Z)
    (g : gmap string value) (h : gmap nat (list value))
    (Hllm : llm ext Tips.Relationships.request_graph = inr (VList (user_obj <$> users)))
    (Hids : NoDup (user_id <$> users)) (Hfr : Forall NoDup (user_friends <$> users))
    (Hu : u ∈ users) (Hv : v ∈ users) (Hlt : user_id u < user_id v) :
  ∃ body,
    events Tips.Relationships.cell_graph ext g h
    = [Call Tips.Relationships.request_graph; Display (VDigraph body)]
    ∧ edges_between (user_id u) (user_id v) body
      = if decide (user_id v ∈ user_friends u) then 1%nat else 0%nat.
Proof.
  exists (nodes_of users ++ edges_of users). split.
  - by apply cell_graph_run.
  - by apply edges_between_pair.
Qed.

Lemma graph_edge_depends_on_smaller_id_witness :
  NoDup (user_id <$> five_kids) ∧ Forall NoDup (user_friends <$> five_kids)
  ∧ (4, "Draco Malfoy", [5]) ∈ five_kids
  ∧ (5, "Neville Longbottom", [1; 2; 3; 4]) ∈ five_kids
  ∧ ∃ body,
      events Tips.Relationships.cell_graph (ext_of (VList (user_obj <$> five_kids))) ∅ ∅
      = [Call Tips.Relationships.request_graph; Display (VDigraph body)]
      ∧ edges_between 4 5 body = 1%nat.
Proof.
  assert (Hids : NoDup (user_id <$> five_kids)).
  { apply (bool_decide_unpack _). vm_compute. exact I. }
  assert (Hfr : Forall NoDup (user_friends <$> five_kids)).
  { apply (bool_decide_unpack _). vm_compute. exact I. }
  assert (Hu : (4, "Draco Malfoy", [5]) ∈ five_kids).
  { apply (bool_decide_unpack _). vm_compute. exact I. }
  assert (Hv : (5, "Neville Longbottom", [1; 2; 3; 4]) ∈ five_kids).
  { apply (bool_decide_unpack _). vm_compute. exact I. }
  split; [exact Hids|]. split; [exact Hfr|]. split; [exact Hu|]. split; [exact Hv|].
  destruct (graph_edge_depends_on_smaller_id
              (ext_of (VList (user_obj <$> five_kids))) five_kids
              (4, "Draco Malfoy", [5]) (5, "Neville Longbottom", [1; 2; 3; 4]) ∅ ∅
              eq_refl Hids Hfr Hu Hv eq_refl) as (body & Hev & Hcount).
  exists body. split; [exact Hev|exact Hcount].
Defined.

(** X2: in the graph the cell displays for a list of users, every user has
    its node, the tail of every edge is a node of the graph, and all the
    node statements come before all the edge statements. *)
Theorem graph_edges_start_at_nodes (ext : external)
    (users : list (Z * string * list Z))
    (g : gmap string value) (h : gmap nat (list value))
    (Hllm : llm ext Tips.Relationships.request_graph = inr (VList (user_obj <$> users))) :
  ∃ body,
    events Tips.Relationships.cell_graph ext g h
    = [Call Tips.Relationships.request_graph; Display (VDigraph body)]
    ∧ (∀ u, u ∈ users → Node (pretty (user_id u)) u.1.2 ∈ body)
    ∧ (∀ t h', Edge t h' ∈ body → ∃ label, Node t label ∈ body)
    ∧ (∀ i j n l t h', body !! i = Some (Node n l) → body !! j = Some (Edge t h') →
                       (i < j)%nat).
Proof.
  exists (nodes_of users ++ edges_of users). split; [by apply cell_graph_run|].
  split; [|split].
  - intros u Hu. apply elem_of_app. left. unfold nodes_of.
    apply list_elem_of_fmap. by exists u.
  - intros t h' H. apply edge_in_body, edge_tail_is_node in H as [label H].
    exists label. apply elem_of_app. by left.
  - intros i j n l t h'. apply nodes_before_edges.
Qed.

Lemma graph_edges_start_at_nodes_witness :
  ∃ body,
    events Tips.Relationships.cell_graph (ext_of (VList (user_obj <$> five_kids))) ∅ ∅
    = [Call Tips.Relationships.request_graph; Display (VDigraph body)]
    ∧ (∀ t h', Edge t h' ∈ body → ∃ label, Node t label ∈ body).
Proof.
  destruct (graph_edges_start_at_nodes (ext_of (VList (user_obj <$> five_kids)))
              five_kids ∅ ∅ eq_refl) as (body & Hev & _ & Htail & _).
  exists body. split; [exact Hev|exact Htail].
Defined.

(** ** Loops over an answer *)

Section Loops.

Lemma bound_in_turn_lookup (x : string) (items : list value) (g : gmap string value) :
  bound_in_turn x items g !! x = from_option Some (g !! x) (last items).
Proof.
  revert g. induction items as [|item items IH]; intros g; [reflexivity|].
  unfold bound_in_turn in *. simpl. rewrite IH, lookup_insert_eq, last_cons.
  by destruct (last items).
Qed.

Lemma bound_in_turn_other (x k : string) (items : list value) (g : gmap string value) :
  k ≠ x → bound_in_turn x items g !! k = g !! k.
Proof.
  intros Hk. revert g. induction items as [|item items IH]; intros g; [reflexivity|].
  unfold bound_in_turn in *. simpl. rewrite IH. by apply lookup_insert_ne.
Qed.

Lemma for_each_emit_exact (f : value → event) (x : string) (l : list value) (s : state) :
  for_each x l (fun item => emit (f item)) s
  = (inr tt, {| globals := bound_in_turn x l (globals s); heap := heap s;
                trace := trace s ++ (f <$> l) |}).
Proof.
  revert s. induction l as [|item l IH]; intros s.
  - simpl. rewrite app_nil_r. by destruct s.
  - rewrite for_each_cons.
    erewrite run_bind by reflexivity. erewrite run_bind by reflexivity.
    rewrite IH. simpl. by rewrite <- app_assoc.
Qed.

(** A cell that calls, binds the answer and loops over it, on a list or a
    generator. *)
Lemma loop_exact (ext : external) (req : request) (var x : string) (f : value → event)
    (v : value) (items : list value) (failure : option exn) (s : state) :
  llm ext req = inr v → answer_items v = Some (items, failure) →
  (resp <- create ext req ;; assign var resp ;;;
   for_in x resp (fun item => emit (f item))) s
  = (ends_with failure,
     {| globals := bound_in_turn x items (<[var := v]> (globals s)); heap := heap s;
        trace := trace s ++ Call req :: (f <$> items) |}).
Proof.
  intros Hllm Hv.
  erewrite run_bind; [|unfold create, bind, emit; simpl; rewrite Hllm; reflexivity].
  erewrite run_bind by reflexivity.
  destruct v; try discriminate; simpl in Hv; simplify_eq; simpl.
  - rewrite for_each_emit_exact. simpl. by rewrite <- app_assoc.
  - erewrite run_bind by apply for_each_emit_exact.
    simpl. rewrite <- app_assoc. by destruct failure.
Qed.

(** [say_hello] does the same in every state: it ends the same way and
    adds the same events. *)
Lemma say_hello_frame (ext : external) (self : value) :
  ∃ r outs, ∀ s, Tips.Classification.say_hello ext self s
                 = (r, {| globals := globals s; heap := heap s; trace := trace s ++ outs |}).
Proof.
  unfold Tips.Classification.say_hello.
  assert (Hstop : ∀ (e : exn) (s : state),
            (inl e : exn + unit, s)
            = (inl e, {| globals := globals s; heap := heap s; trace := trace s ++ [] |})).
  { intros e s. rewrite app_nil_r. by destruct s. }
  destruct (getattr_pure self "name") as [[e|name] H1];
    [exists (inl e), []; intros s; erewrite run_bind_raise by apply H1; apply Hstop|].
  destruct (getattr_pure self "age") as [[e|age] H2];
    [exists (inl e), []; intros s; erewrite run_bind by apply H1;
     erewrite run_bind_raise by apply H2; apply Hstop|].
  destruct (getattr_pure self "house") as [[e|house] H3];
    [exists (inl e), []; intros s; erewrite run_bind by apply H1;
     erewrite run_bind by apply H2; erewrite run_bind_raise by apply H3; apply Hstop|].
  destruct (getattr_pure house "value") as [[e|house_value] H4];
    [exists (inl e), []; intros s; erewrite run_bind by apply H1;
     erewrite run_bind by apply H2; erewrite run_bind by apply H3;
     erewrite run_bind_raise by apply H4; apply Hstop|].
  destruct (call_title_pure house_value) as [[e|titled] H5];
    [exists (inl e), []; intros s; erewrite run_bind by apply H1;
     erewrite run_bind by apply H2; erewrite run_bind by apply H3;
     erewrite run_bind by apply H4; erewrite run_bind_raise by apply H5; apply Hstop|].
  eexists (inr tt), [_]. intros s.
  erewrite run_bind by apply H1. erewrite run_bind by apply H2.
  erewrite run_bind by apply H3. erewrite run_bind by apply H4.
  erewrite run_bind by apply H5. reflexivity.
Qed.

End Loops.

(** X3: when the call of the first cell returns a [Character], the next
    cell, run in the namespace the first one left, greets that character:
    the two cells together make the call, show the dump and print the
    greeting, and [resp] stays bound to the answer. *)
Theorem say_hello_greets_the_answer (ext : external) (age : Z) (name : string)
    (house : Tips.Classification.HouseMember)
    (g : gmap string value) (h : gmap nat (list value))
    (Hllm : llm ext Tips.Classification.request
            = inr (Tips.Classification.character_obj age name house)) :
  Tips.Classification.cell_say_hello ext (final Tips.Classification.cell ext g h)
  = (inr tt,
     {| globals := <["resp" := Tips.Classification.character_obj age name house]> g;
        heap := h;
        trace :=
          [Call Tips.Classification.request;
           Result (model_dump ext (Tips.Classification.character_obj age name house));
           Print (VStr ("Hello, I'm " +:+ name +:+ ", I'm " +:+ pretty age
                        +:+ " years old and I'm from "
                        +:+ capitalize_first (Tips.Classification.member_value house)))] |}).
Proof.
  assert (E : final Tips.Classification.cell ext g h
              = {| globals := <["resp" := Tips.Classification.character_obj age name house]> g;
                   heap := h;
                   trace := [Call Tips.Classification.request;
                             Result (model_dump ext
                                       (Tips.Classification.character_obj age name house))] |}).
  { unfold final, Tips.Classification.cell, create, bind, emit. simpl.
    rewrite Hllm. reflexivity. }
  rewrite E. unfold Tips.Classification.cell_say_hello.
  erewrite run_bind; [|unfold load; simpl; rewrite lookup_insert_eq; reflexivity].
  destruct house; reflexivity.
Qed.

Lemma say_hello_greets_the_answer_witness :
  trace (snd (Tips.Classification.cell_say_hello
                (ext_of (Tips.Classification.character_obj 17 "Harry Potter"
                           Tips.Classification.Gryffindor))
                (final Tips.Classification.cell
                   (ext_of (Tips.Classification.character_obj 17 "Harry Potter"
                              Tips.Classification.Gryffindor)) ∅ ∅)))
  = [Call Tips.Classification.request;
     Result (Tips.Classification.character_obj 17 "Harry Potter"
               Tips.Classification.Gryffindor);
     Print (VStr "Hello, I'm Harry Potter, I'm 17 years old and I'm from Gryffindor")].
Proof.
  rewrite (say_hello_greets_the_answer
             (ext_of (Tips.Classification.character_obj 17 "Harry Potter"
                        Tips.Classification.Gryffindor))
             17 "Harry Potter" Tips.Classification.Gryffindor ∅ ∅ eq_refl).
  reflexivity.
Defined.

(** X4: when the call of the first cell raises, the cell ends with what
    was raised, shows nothing and does not bind [resp]: [resp] is still the
    answer of an earlier run, or still unbound.  The next cell then ends
    exactly as it would have without the first (a greeting of the old
    answer, or a NameError) and shows what it would have shown, after the
    failed call. *)
Theorem failed_call_leaves_resp_stale (ext : external) (e : exn)
    (g : gmap string value) (h : gmap nat (list value))
    (Hllm : llm ext Tips.Classification.request = inl e) :
  outcome Tips.Classification.cell ext g h = inl e
  ∧ events Tips.Classification.cell ext g h = [Call Tips.Classification.request]
  ∧ globals (final Tips.Classification.cell ext g h) !! "resp" = g !! "resp"
  ∧ fst (Tips.Classification.cell_say_hello ext (final Tips.Classification.cell ext g h))
    = outcome Tips.Classification.cell_say_hello ext g h
  ∧ trace (snd (Tips.Classification.cell_say_hello ext
                  (final Tips.Classification.cell ext g h)))
    = Call Tips.Classification.request :: events Tips.Classification.cell_say_hello ext g h
  ∧ (g !! "resp" = None →
     outcome Tips.Classification.cell_say_hello ext g h = inl "NameError").
Proof.
  assert (E : Tips.Classification.cell ext (start g h)
              = (inl e,
                 {| globals := g; heap := h; trace := [Call Tips.Classification.request] |})).
  { unfold Tips.Classification.cell, create, bind, emit. simpl.
    rewrite Hllm. reflexivity. }
  unfold outcome at 1, events at 1, final. rewrite E. simpl.
  split; [reflexivity|]. split; [reflexivity|]. split; [reflexivity|].
  unfold outcome, events, Tips.Classification.cell_say_hello, bind, load, start. simpl.
  destruct (g !! "resp") as [resp|]; [|by repeat split].
  destruct (say_hello_frame ext resp) as (r & outs & Hs).
  rewrite !Hs. simpl. repeat split. intros; discriminate.
Qed.

Lemma failed_call_leaves_resp_stale_witness :
  outcome Tips.Classification.cell_say_hello (ext_raising "APITimeoutError") ∅ ∅
  = inl "NameError"
  ∧ fst (Tips.Classification.cell_say_hello (ext_raising "APITimeoutError")
           (final Tips.Classification.cell (ext_raising "APITimeoutError") ∅ ∅))
    = inl "NameError".
Proof.
  destruct (failed_call_leaves_resp_stale (ext_raising "APITimeoutError")
              "APITimeoutError" ∅ ∅ eq_refl) as (_ & _ & _ & Ho & _ & Hn).
  rewrite Ho. split; apply Hn; reflexivity.
Defined.

(** X5: in the three cells of the tips notebook that loop over the answer,
    when the answer is a list or a generator the cell prints its items, one
    by one and in order, after the call; it ends normally, or, when the
    generator raises after its items, with what the generator raised, the
    items that came before being printed all the same.  [resp] is bound to
    the answer and the loop variable [character] to the last item; after an
    empty answer [character] is what it was. *)
Theorem print_loops_print_in_order (ext : external) (c : Py.cell) (req : request)
    (v : value) (items : list value) (failure : option exn)
    (g : gmap string value) (h : gmap nat (list value))
    (Hc : (c, req) ∈ print_loops)
    (Hllm : llm ext req = inr v) (Hv : answer_items v = Some (items, failure)) :
  events c ext g h = Call req :: (Print <$> items)
  ∧ outcome c ext g h = ends_with failure
  ∧ globals (final c ext g h) !! "resp" = Some v
  ∧ globals (final c ext g h) !! "character" = from_option Some (g !! "character") (last items)
  ∧ heap (final c ext g h) = h.
Proof.
  assert (E : c ext (start g h)
              = (ends_with failure,
                 {| globals := bound_in_turn "character" items (<["resp" := v]> g);
                    heap := h; trace := Call req :: (Print <$> items) |})).
  { unfold print_loops in Hc.
    repeat (apply elem_of_cons in Hc as [Heq|Hc];
            [injection Heq as -> ->;
             exact (loop_exact ext _ "resp" "character" Print v items failure
                      (start g h) Hllm Hv)|]).
    by apply elem_of_nil in Hc. }
  unfold events, outcome, final. rewrite E. simpl.
  rewrite bound_in_turn_lookup, bound_in_turn_other by done.
  rewrite lookup_insert_eq, lookup_insert_ne by done. done.
Qed.

Lemma print_loops_print_in_order_witness :
  (Tips.MultipleEntities.cell_stream, Tips.MultipleEntities.request_stream) ∈ print_loops
  ∧ events Tips.MultipleEntities.cell_stream
      (ext_of (VGen [VStr "Severus Snape"; VStr "Albus Dumbledore"] (Some "APIError"))) ∅ ∅
    = [Call Tips.MultipleEntities.request_stream;
       Print (VStr "Severus Snape"); Print (VStr "Albus Dumbledore")]
  ∧ outcome Tips.MultipleEntities.cell_stream
      (ext_of (VGen [VStr "Severus Snape"; VStr "Albus Dumbledore"] (Some "APIError"))) ∅ ∅
    = inl "APIError".
Proof.
  assert (Hc : (Tips.MultipleEntities.cell_stream, Tips.MultipleEntities.request_stream)
               ∈ print_loops) by (right; left).
  split; [exact Hc|].
  destruct (print_loops_print_in_order
              (ext_of (VGen [VStr "Severus Snape"; VStr "Albus Dumbledore"] (Some "APIError")))
              _ _ _ [VStr "Severus Snape"; VStr "Albus Dumbledore"] (Some "APIError")
              ∅ ∅ Hc eq_refl eq_refl) as (He & Ho & _).
  split; [exact He|exact Ho].
Defined.

(** X6: when the call of the extraction cell returns a list or a generator
    of [Extraction] instances, the cell pretty-prints the dump of each item,
    in order, after the call, and ends normally or with what the generator
    raised after its items; [extractions] is bound to the answer and
    [text_chunk] to the text, which is the text the request carries. *)
Theorem extraction_cell_prints_dumps (ext : external)
    (v : value) (items : list value) (failure : option exn)
    (g : gmap string value) (h : gmap nat (list value))
    (Hllm : llm ext Rag.Extractions.request = inr v)
    (Hv : answer_items v = Some (items, failure))
    (Hitems : forallb (instance_of Rag.Extractions.Extraction) items = true) :
  events Rag.Extractions.cell ext g h
  = Call Rag.Extractions.request :: ((fun item => PPrint (model_dump ext item)) <$> items)
  ∧ outcome Rag.Extractions.cell ext g h = ends_with failure
  ∧ globals (final Rag.Extractions.cell ext g h) !! "extractions" = Some v
  ∧ globals (final Rag.Extractions.cell ext g h) !! "text_chunk"
    = Some (VStr Rag.Extractions.text_chunk)
  ∧ content <$> last (messages Rag.Extractions.request) = Some Rag.Extractions.text_chunk.
Proof.
  assert (E : Rag.Extractions.cell ext (start g h)
              = (ends_with failure,
                 {| globals := bound_in_turn "extraction" items
                                 (<["extractions" := v]>
                                    (<["text_chunk" := VStr Rag.Extractions.text_chunk]> g));
                    heap := h;
                    trace := Call Rag.Extractions.request
                             :: ((fun item => PPrint (model_dump ext item)) <$> items) |})).
  { unfold Rag.Extractions.cell. erewrite run_bind by reflexivity.
    exact (loop_exact ext _ "extractions" "extraction"
             (fun item => PPrint (model_dump ext item)) v items failure _ Hllm Hv). }
  unfold events, outcome, final. rewrite E. simpl.
  rewrite !bound_in_turn_other by done.
  rewrite lookup_insert_eq, lookup_insert_ne by done. rewrite lookup_insert_eq. done.
Qed.

Lemma extraction_cell_prints_dumps_witness :
  forallb (instance_of Rag.Extractions.Extraction) (shown_extractions "Extraction") = true
  ∧ events Rag.Extractions.cell
      (ext_answering (VGen (shown_extractions "Extraction") None)) ∅ ∅
    = Call Rag.Extractions.request :: (PPrint <$> shown_extractions "dict").
Proof.
  split; [reflexivity|].
  exact (proj1 (extraction_cell_prints_dumps
                  (ext_answering (VGen (shown_extractions "Extraction") None))
                  _ (shown_extractions "Extraction") None ∅ ∅ eq_refl eq_refl eq_refl)).
Defined.

(** X7: the extraction cell binds [text_chunk] before it calls: when the
    call raises, the cell ends with what was raised and has shown nothing,
    [text_chunk] is bound to the text all the same, and [extractions] and
    [extraction] are what they were, bound by an earlier run or unbound. *)
Theorem extraction_cell_binds_text_first (ext : external) (e : exn)
    (g : gmap string value) (h : gmap nat (list value))
    (Hllm : llm ext Rag.Extractions.request = inl e) :
  outcome Rag.Extractions.cell ext g h = inl e
  ∧ events Rag.Extractions.cell ext g h = [Call Rag.Extractions.request]
  ∧ globals (final Rag.Extractions.cell ext g h) !! "text_chunk"
    = Some (VStr Rag.Extractions.text_chunk)
  ∧ globals (final Rag.Extractions.cell ext g h) !! "extractions" = g !! "extractions"
  ∧ globals (final Rag.Extractions.cell ext g h) !! "extraction" = g !! "extraction".
Proof.
  assert (E : Rag.Extractions.cell ext (start g h)
              = (inl e,
                 {| globals := <["text_chunk" := VStr Rag.Extractions.text_chunk]> g;
                    heap := h; trace := [Call Rag.Extractions.request] |})).
  { unfold Rag.Extractions.cell. erewrite run_bind by reflexivity.
    unfold create, bind, emit. simpl. rewrite Hllm. reflexivity. }
  unfold outcome, events, final. rewrite E. simpl.
  split; [reflexivity|]. split; [reflexivity|].
  split; [apply lookup_insert_eq|]. split; by apply lookup_insert_ne.
Qed.

Lemma extraction_cell_binds_text_first_witness :
  globals (final Rag.Extractions.cell (ext_raising "RateLimitError") ∅ ∅) !! "text_chunk"
  = Some (VStr Rag.Extractions.text_chunk)
  ∧ outcome Rag.Extractions.cell (ext_raising "RateLimitError") ∅ ∅ = inl "RateLimitError".
Proof.
  destruct (extraction_cell_binds_text_first (ext_raising "RateLimitError")
              "RateLimitError" ∅ ∅ eq_refl) as (Ho & _ & Ht & _).
  split; [exact Ht|exact Ho].
Defined.

(** ** Required fields, literals and nested instances *)

Section MoreConstruct.
Import Validation.

(** A field that is given, passes its annotation unchanged and has no
    constraint, whatever its default. *)
Lemma validate_fields_keep kwargs name ann info fs given s rest :
  assoc name kwargs = Some given → metadata info = [] →
  validate ann given s = (inr given, s) →
  validate_fields kwargs fs s = (inr rest, s) →
  validate_fields kwargs ((name, (ann, info)) :: fs) s = (inr ((name, given) :: rest), s).
Proof.
  intros Hk Hm Hv Hrest. rewrite (validate_fields_given _ _ _ _ _ _ Hk).
  erewrite run_bind; [|erewrite run_bind; [|exact Hv]; unfold check; rewrite Hm; reflexivity].
  erewrite run_bind; [reflexivity|exact Hrest].
Qed.

(** A required field that is left out. *)
Lemma validate_fields_required kwargs name ann descr cs fs s :
  assoc name kwargs = None →
  validate_fields kwargs ((name, (ann, Field None descr cs)) :: fs) s
  = (inl "ValidationError", s).
Proof. intros Hk. rewrite (validate_fields_missing _ _ _ _ _ Hk). reflexivity. Qed.

(** A str field, given or not, followed by fields that are refused. *)
Lemma validate_fields_str_then_refused kwargs name info fs s :
  validate_fields kwargs fs s = (inl "ValidationError", s) →
  default_factory info = None →
  validate_fields kwargs ((name, (AStr, info)) :: fs) s = (inl "ValidationError", s).
Proof.
  intros Hfs Hd. destruct (assoc name kwargs) as [given|] eqn:Hk.
  - rewrite (validate_fields_given _ _ _ _ _ _ Hk).
    destruct given as [| | | | | | | | |]; try reflexivity.
    match goal with |- context [validate _ ?given] =>
      assert (Hc : check info given s = (inr given, s)
                   ∨ check info given s = (inl "ValidationError", s))
        by (unfold check; destruct (forallb (fun c => satisfies c given) (metadata info));
            [left|right]; reflexivity)
    end.
    destruct Hc as [Hc|Hc].
    + erewrite run_bind; [|erewrite run_bind by reflexivity; exact Hc].
      erewrite run_bind_raise by exact Hfs. reflexivity.
    + erewrite run_bind_raise; [reflexivity|].
      erewrite run_bind by reflexivity. exact Hc.
  - rewrite (validate_fields_missing _ _ _ _ _ Hk). unfold default. rewrite Hd. reflexivity.
Qed.

Lemma validate_fields_int_then_refused kwargs name info fs s :
  validate_fields kwargs fs s = (inl "ValidationError", s) →
  default_factory info = None →
  validate_fields kwargs ((name, (AInt, info)) :: fs) s = (inl "ValidationError", s).
Proof.
  intros Hfs Hd. destruct (assoc name kwargs) as [given|] eqn:Hk.
  - rewrite (validate_fields_given _ _ _ _ _ _ Hk).
    destruct given as [| | | | | | | | |]; try reflexivity.
    match goal with |- context [validate _ ?given] =>
      assert (Hc : check info given s = (inr given, s)
                   ∨ check info given s = (inl "ValidationError", s))
        by (unfold check; destruct (forallb (fun c => satisfies c given) (metadata info));
            [left|right]; reflexivity)
    end.
    destruct Hc as [Hc|Hc].
    + erewrite run_bind; [|erewrite run_bind by reflexivity; exact Hc].
      erewrite run_bind_raise by exact Hfs. reflexivity.
    + erewrite run_bind_raise; [reflexivity|].
      erewrite run_bind by reflexivity. exact Hc.
  - rewrite (validate_fields_missing _ _ _ _ _ Hk). unfold default. rewrite Hd. reflexivity.
Qed.

Lemma strings_fixed (l : list string) (s : state) :
  validate (AList AStr) (VList (VStr <$> l)) s = (inr (VList (VStr <$> l)), s).
Proof.
  rewrite validate_list. erewrite run_bind; [reflexivity|].
  apply validate_each_fixed, Forall_fmap, Forall_forall. intros x _. reflexivity.
Qed.

Lemma key_value_fixed (p : string * string) (s : state) :
  validate Tips.Properties.Property (key_value_obj "Property" p) s
  = (inr (key_value_obj "Property" p), s).
Proof. reflexivity. Qed.

Lemma validate_each_cons (item : annotation) (x : value) (l : list value) :
  validate_each item (x :: l)
  = (y <- validate item x ;; ys <- validate_each item l ;; ret (y :: ys)).
Proof. reflexivity. Qed.

(** A list of instances is refused at its first element without a key. *)
Lemma validate_each_refused (pre : list (string * string)) (c : string)
    (kw : list (string * value)) (post : list value) (s : state) :
  assoc "key" kw = None →
  validate_each Tips.Properties.Property
    ((key_value_obj "Property" <$> pre) ++ VObj c kw :: post) s
  = (inl "ValidationError", s).
Proof.
  intros Hk. induction pre as [|p pre IH].
  - rewrite fmap_nil, app_nil_l, validate_each_cons.
    erewrite run_bind_raise; [reflexivity|].
    unfold Tips.Properties.Property. rewrite validate_model.
    erewrite run_bind_raise; [reflexivity|]. by apply validate_fields_required.
  - rewrite fmap_cons, <- app_comm_cons, validate_each_cons.
    erewrite run_bind by apply key_value_fixed.
    erewrite run_bind_raise by exact IH. reflexivity.
Qed.

End MoreConstruct.

(** X9: an [Extraction] built with its two lists given is built without
    error and its fields hold the items that were given, in the order they
    were given: the empty list of the default factory is for a field that
    is left out only. *)
Theorem extraction_keeps_given_lists (s : state) (topic summary : string)
    (questions keywords : list string) :
  fst (Validation.construct Rag.Extractions.Extraction
         [("topic", VStr topic); ("summary", VStr summary);
          ("hypothetical_questions", VList (VStr <$> questions));
          ("keywords", VList (VStr <$> keywords))] s)
  = inr (extraction_obj "Extraction" topic summary questions keywords).
Proof.
  unfold Validation.construct, Rag.Extractions.Extraction.
  rewrite validate_model.
  erewrite run_bind; [reflexivity|].
  repeat (apply validate_fields_keep; [reflexivity|reflexivity| |]);
    try reflexivity; apply strings_fixed.
Qed.

(** X10: the fields declared without a default are required: an
    [Extraction] built without topic or without summary, and a [Question]
    built without id or without query, are refused with a ValidationError,
    whatever else is given, and the state is left as it was. *)
Theorem required_fields_are_required (s : state) (kwargs kwargs' : list (string * value))
    (Hmissing : assoc "topic" kwargs = None ∨ assoc "summary" kwargs = None)
    (Hmissing' : assoc "id" kwargs' = None ∨ assoc "query" kwargs' = None) :
  Validation.construct Rag.Extractions.Extraction kwargs s = (inl "ValidationError", s)
  ∧ Validation.construct Rag.Decomposition.Question kwargs' s = (inl "ValidationError", s).
Proof.
  split.
  - unfold Validation.construct, Rag.Extractions.Extraction. rewrite validate_model.
    erewrite run_bind_raise; [reflexivity|].
    destruct Hmissing as [H|H].
    + by apply validate_fields_required.
    + apply validate_fields_str_then_refused; [|reflexivity].
      by apply validate_fields_required.
  - unfold Validation.construct, Rag.Decomposition.Question. rewrite validate_model.
    erewrite run_bind_raise; [reflexivity|].
    destruct Hmissing' as [H|H].
    + by apply validate_fields_required.
    + apply validate_fields_int_then_refused; [|reflexivity].
      by apply validate_fields_required.
Qed.

Lemma required_fields_are_required_witness :
  fst (Validation.construct Rag.Extractions.Extraction
         [("topic", VStr "Simple RAG"); ("keywords", VList [])] init)
  = inl "ValidationError"
  ∧ fst (Validation.construct Rag.Decomposition.Question [("id", VInt 1)] init)
    = inl "ValidationError".
Proof.
  destruct (required_fields_are_required init
              [("topic", VStr "Simple RAG"); ("keywords", VList [])] [("id", VInt 1)]
              (or_intror eq_refl) (or_intror eq_refl)) as [H1 H2].
  rewrite H1, H2. split; reflexivity.
Defined.

(** X11: the cells that give the house as a Literal take the four names
    as they are written and nothing else: a [Character] is built when the
    house is one of them and refused otherwise.  The values of the Enum of
    the first cell, in lower case, are refused. *)
Theorem literal_house_takes_the_names (s : state) (age : Z) (name house : string)
    (h : Tips.Classification.HouseMember) :
  Validation.construct Tips.Literals.Character
    [("age", VInt age); ("name", VStr name); ("house", VStr house)] s
  = (if decide (house ∈ ["Gryffindor"; "Hufflepuff"; "Ravenclaw"; "Slytherin"])
     then (inr (literal_character_obj "Character" age name house), s)
     else (inl "ValidationError", s))
  ∧ fst (Validation.construct Tips.Literals.Character
           [("age", VInt age); ("name", VStr name);
            ("house", VStr (Tips.Classification.member_name h))] s)
    = inr (literal_character_obj "Character" age name (Tips.Classification.member_name h))
  ∧ fst (Validation.construct Tips.Literals.Character
           [("age", VInt age); ("name", VStr name);
            ("house", VStr (Tips.Classification.member_value h))] s)
    = inl "ValidationError".
Proof.
  split; [|split; destruct h; reflexivity].
  unfold Validation.construct, Tips.Literals.Character. rewrite validate_model.
  destruct (decide (house ∈ ["Gryffindor"; "Hufflepuff"; "Ravenclaw"; "Slytherin"]))
    as [Hin|Hnot].
  - erewrite run_bind; [reflexivity|].
    repeat (apply validate_fields_keep; [reflexivity|reflexivity| |]); try reflexivity.
    simpl. rewrite bool_decide_eq_true_2 by exact Hin. reflexivity.
  - erewrite run_bind_raise; [reflexivity|].
    rewrite (validate_fields_given _ "age" _ _ _ (VInt age)) by reflexivity.
    erewrite run_bind by reflexivity.
    erewrite run_bind_raise; [reflexivity|].
    rewrite (validate_fields_given _ "name" _ _ _ (VStr name)) by reflexivity.
    erewrite run_bind by reflexivity.
    erewrite run_bind_raise; [reflexivity|].
    rewrite (validate_fields_given _ "house" _ _ _ (VStr house)) by reflexivity.
    erewrite run_bind_raise; [reflexivity|].
    erewrite run_bind_raise; [reflexivity|].
    simpl. rewrite bool_decide_eq_false_2 by exact Hnot. reflexivity.
Qed.

(** X12: a [Character] of the cell of arbitrary properties is refused as a
    whole when one of its properties, wherever it stands in the list, has
    no key; nothing is built of the properties before it. *)
Theorem one_bad_property_refuses_the_character (s : state) (age : Z)
    (name house : string) (pre : list (string * string)) (c : string)
    (kw : list (string * value)) (post : list value)
    (Hhouse : house ∈ ["Gryffindor"; "Hufflepuff"; "Ravenclaw"; "Slytherin"])
    (Hkey : assoc "key" kw = None) :
  Validation.construct Tips.Properties.Character
    (character_kwargs age name house
       ((key_value_obj "Property" <$> pre) ++ VObj c kw :: post)) s
  = (inl "ValidationError", s).
Proof.
  unfold Validation.construct, Tips.Properties.Character, character_kwargs.
  rewrite validate_model.
  erewrite run_bind_raise; [reflexivity|].
  rewrite (validate_fields_given _ "age" _ _ _ (VInt age)) by reflexivity.
  erewrite run_bind by reflexivity.
  erewrite run_bind_raise; [reflexivity|].
  rewrite (validate_fields_given _ "name" _ _ _ (VStr name)) by reflexivity.
  erewrite run_bind by reflexivity.
  erewrite run_bind_raise; [reflexivity|].
  rewrite (validate_fields_given _ "house" _ _ _ (VStr house)) by reflexivity.
  erewrite run_bind;
    [|erewrite run_bind; [reflexivity|];
      simpl; rewrite bool_decide_eq_true_2 by exact Hhouse; reflexivity].
  erewrite run_bind_raise; [reflexivity|].
  erewrite (validate_fields_given _ "properties") by reflexivity.
  erewrite run_bind_raise; [reflexivity|].
  erewrite run_bind_raise; [reflexivity|].
  rewrite validate_list.
  erewrite run_bind_raise; [reflexivity|].
  by apply validate_each_refused.
Qed.

Lemma one_bad_property_refuses_the_character_witness :
  fst (Validation.construct Tips.Properties.Character
         (character_kwargs 38 "Severus Snape" "Slytherin"
            [key_value_obj "Property" ("patronus", "Doe");
             VObj "dict" [("value", VStr "Potions Master")]]) init)
  = inl "ValidationError".
Proof.
  assert (Hhouse : "Slytherin" ∈ ["Gryffindor"; "Hufflepuff"; "Ravenclaw"; "Slytherin"]).
  { apply list_elem_of_In. simpl. tauto. }
  exact (f_equal fst
           (one_bad_property_refuses_the_character init 38 "Severus Snape" "Slytherin"
              [("patronus", "Doe")] "dict" [("value", VStr "Potions Master")] []
              Hhouse eq_refl)).
Defined.

(** ** Default lists in a plan *)

Section PlanDefaults.
Import Validation.

Lemma question_gets_new_list (q : Z * string) (s : state) :
  validate Rag.Decomposition.Question (question_kwargs q) s
  = (inr (question_with_list q (fresh (dom (heap s)))),
     {| globals := globals s; heap := <[fresh (dom (heap s)) := []]> (heap s);
        trace := trace s |}).
Proof. reflexivity. Qed.

Lemma questions_get_new_lists (qs : list (Z * string)) :
  ∀ s, ∃ addrs s',
    validate_each Rag.Decomposition.Question (question_kwargs <$> qs) s
    = (inr (zip_with question_with_list qs addrs), s')
    ∧ List.length addrs = List.length qs
    ∧ NoDup addrs
    ∧ (∀ a, a ∈ addrs → (a ∉ dom (heap s)) ∧ heap s' !! a = Some [])
    ∧ (∀ a, a ∈ dom (heap s) → heap s' !! a = heap s !! a)
    ∧ globals s' = globals s ∧ trace s' = trace s.
Proof.
  induction qs as [|q qs IH]; intros s.
  - exists [], s. split; [reflexivity|]. split; [reflexivity|].
    split; [apply NoDup_nil_2|].
    split; [intros a Ha; by apply elem_of_nil in Ha|]. done.
  - set (a1 := fresh (dom (heap s))).
    set (s1 := {| globals := globals s; heap := <[a1 := []]> (heap s); trace := trace s |}).
    assert (Ha1 : a1 ∉ dom (heap s)) by apply is_fresh.
    destruct (IH s1) as (addrs & s' & E & Hlen & Hnd & Hnew & Hold & Hg & Ht).
    assert (Hin1 : a1 ∈ dom (heap s1)).
    { apply elem_of_dom. unfold s1. simpl. rewrite lookup_insert_eq. by eexists. }
    exists (a1 :: addrs), s'. split; [|split; [|split; [|split; [|split]]]].
    + rewrite fmap_cons. simpl.
      erewrite run_bind by apply question_gets_new_list.
      fold (validate_each Rag.Decomposition.Question).
      fold a1. fold s1. erewrite run_bind by exact E. reflexivity.
    + simpl. by rewrite Hlen.
    + apply NoDup_cons. split; [|exact Hnd].
      intros Hin. by destruct (Hnew a1 Hin).
    + intros a Ha. apply elem_of_cons in Ha as [->|Ha].
      * split; [exact Ha1|]. rewrite (Hold a1 Hin1). apply lookup_insert_eq.
      * destruct (Hnew a Ha) as [Hfresh Hempty]. split; [|exact Hempty].
        intros Hin. apply Hfresh. unfold s1. simpl. rewrite dom_insert_L.
        apply elem_of_union. by right.
    + intros a Ha. rewrite Hold.
      * unfold s1. simpl. apply lookup_insert_ne. intros <-. done.
      * unfold s1. simpl. rewrite dom_insert_L. apply elem_of_union. by right.
    + by rewrite Hg, Ht.
Qed.

End PlanDefaults.

(** X14: a [QueryPlan] built from questions that give no subquestions is
    built without error, and every question of it gets a list object of
    its own: as many new, empty lists as there are questions, no two of
    them the same and none of them a list that existed before; the lists
    that existed are left as they were. *)
Theorem plan_questions_get_their_own_lists (s : state) (root_question : string)
    (qs : list (Z * string)) :
  ∃ addrs s',
    Validation.construct Rag.Decomposition.QueryPlan
      [("root_question", VStr root_question); ("plan", VList (question_kwargs <$> qs))] s
    = (inr (VObj "QueryPlan"
              [("root_question", VStr root_question);
               ("plan", VList (zip_with question_with_list qs addrs))]), s')
    ∧ List.length addrs = List.length qs
    ∧ NoDup addrs
    ∧ (∀ a, a ∈ addrs → (a ∉ dom (heap s)) ∧ heap s' !! a = Some [])
    ∧ (∀ a, a ∈ dom (heap s) → heap s' !! a = heap s !! a)
    ∧ globals s' = globals s ∧ trace s' = trace s.
Proof.
  destruct (questions_get_new_lists qs s) as (addrs & s' & E & Hrest).
  exists addrs, s'. split; [|exact Hrest].
  unfold Validation.construct, Rag.Decomposition.QueryPlan. rewrite validate_model.
  erewrite run_bind; [reflexivity|].
  rewrite (validate_fields_given _ "root_question" _ _ _ (VStr root_question)) by reflexivity.
  erewrite run_bind by reflexivity.
  erewrite run_bind; [reflexivity|].
  erewrite (validate_fields_given _ "plan") by reflexivity.
  erewrite run_bind; [reflexivity|].
  erewrite run_bind; [reflexivity|].
  rewrite validate_list. erewrite run_bind by exact E. reflexivity.
Qed.
